(** * LOGGING.ino: NMEA RMC logger

    A shallow embedding of the sketch's sentence assembler, RMC decoder,
    UTC-to-local conversion and 5-second log scheduler, with the properties
    of the written specification stated over it.

    Conventions.
    - A [char] is an [ascii]; its integer value is [char_val] (0..255, the
      target is an ARM core where plain [char] is unsigned; for 7-bit
      characters the signed reading gives the same numbers).
    - A [char] array is a [list ascii]; the string it holds is what lies
      before the first NUL, [c_str].
    - [int] is 32 bits; every [int] computed below stays within a few
      thousand in absolute value, so its arithmetic is written on [Z]
      with C's truncating [/] and [%] ([Z.quot], [Z.rem]).
    - [unsigned long] is 32 bits; its subtraction wraps, [sub32]. *)

From Stdlib Require Import Ascii String List ZArith Lia Bool Arith.
From Stdlib Require Import DecimalString Sorted.
Import ListNotations.

Local Open Scope Z_scope.

(** ** Characters and C strings *)

Definition NUL : ascii := Ascii.zero.

Definition char_val (c : ascii) : Z := Z.of_nat (nat_of_ascii c).

Definition lit (s : string) : list ascii := list_ascii_of_string s.

Definition is_nul (c : ascii) : bool := Ascii.eqb c NUL.

(** The string held by a char array: the characters before the first NUL. *)
Fixpoint c_str (a : list ascii) : list ascii :=
  match a with
  | [] => []
  | c :: r => if is_nul c then [] else c :: c_str r
  end.

Definition strlen (a : list ascii) : nat := length (c_str a).

(** [a[i] = c] on an array; a store past the end of the list is not made by
    any caller below. *)
Fixpoint store (a : list ascii) (i : nat) (c : ascii) : list ascii :=
  match a, i with
  | [], _ => []
  | _ :: r, O => c :: r
  | x :: r, S j => x :: store r j c
  end.

(** [strncpy(dst, src, n)]: exactly [n] characters are written, those of the
    string [src] followed by NUL padding when [src] is shorter. *)
Definition strncpy (dst src : list ascii) (n : nat) : list ascii :=
  firstn n (c_str src ++ repeat NUL n) ++ skipn n dst.

(** [strstr(hay, needle) != NULL] *)
Fixpoint prefix_of (p s : list ascii) : bool :=
  match p, s with
  | [], _ => true
  | _ :: _, [] => false
  | a :: p', b :: s' => Ascii.eqb a b && prefix_of p' s'
  end.

Fixpoint strstr (hay needle : list ascii) : bool :=
  prefix_of needle hay ||
  match hay with
  | [] => false
  | _ :: r => strstr r needle
  end.

(** ** Time zone *)

Definition TZ_HOURS : Z := 5.
Definition TZ_MINUTES : Z := 30.

(** [printf]'s [%02d]: the decimal digits of the number, a minus sign in
    front of a negative one, zeros added after the sign up to width 2. *)
Definition fmt_02d (n : Z) : list ascii :=
  let digits := lit (NilZero.string_of_uint (N.to_uint (Z.abs_N n))) in
  if n <? 0 then "-"%char :: digits
  else repeat "0"%char (2 - length digits) ++ digits.

(** [utcTime[i]], a NUL when the model's list is shorter. *)
Definition char_at (a : list ascii) (i : nat) : ascii := nth i a NUL.

Definition digit_at (a : list ascii) (i : nat) : Z :=
  char_val (char_at a i) - char_val "0"%char.

(** The three numbers [adjustTimeZone] formats, after the offset. *)
Definition adjusted (utcTime : list ascii) : Z * Z * Z :=
  let hours   := digit_at utcTime 0 * 10 + digit_at utcTime 1 in
  let minutes := digit_at utcTime 2 * 10 + digit_at utcTime 3 in
  let seconds := digit_at utcTime 4 * 10 + digit_at utcTime 5 in
  let minutes := minutes + TZ_MINUTES in
  let hours   := hours + (TZ_HOURS + Z.quot minutes 60) in
  let minutes := Z.rem minutes 60 in
  let hours   := Z.rem hours 24 in
  (hours, minutes, seconds).

(** [adjustTimeZone(utcTime, localTime)]: the characters [sprintf] writes,
    without the closing NUL. *)
Definition adjustTimeZone (utcTime : list ascii) : list ascii :=
  let '(hours, minutes, seconds) := adjusted utcTime in
  fmt_02d hours ++ fmt_02d minutes ++ fmt_02d seconds.

(** [sprintf(dst, ...)] producing [out]: the characters, the closing NUL,
    and what was in [dst] after them. An output longer than the array runs
    past its end (into the members that follow in the struct); the list
    then grows, so that the overrun stays visible as a length. The members
    that follow ([lat] first) are not rewritten here: what is stated about
    them is stated where the output has at most six characters. *)
Definition sprintf_into (dst out : list ascii) : list ascii :=
  out ++ NUL :: skipn (S (length out)) dst.

(** ** The fix record *)

(** [float] values are kept symbolic: the record only ever holds the zero
    of [memset] and of the literal [0.0], or [atof(token) * 1.852] for a
    token of the sentence. *)
Inductive float_val : Type :=
| F_zero
| F_knots_to_kmh (token : list ascii).

Record GpsData : Type := mkGpsData {
  date : list ascii;       (* char date[7] *)
  time : list ascii;       (* char time[7] *)
  lat : list ascii;        (* char lat[11] *)
  ns : ascii;
  lon : list ascii;        (* char lon[11] *)
  ew : ascii;
  speed : float_val;
  mode : ascii;
  dataReady : bool
}.

(** [memset(&gpsData, 0, sizeof(gpsData))] *)
Definition gps_zero : GpsData :=
  mkGpsData (repeat NUL 7) (repeat NUL 7) (repeat NUL 11) NUL
            (repeat NUL 11) NUL F_zero NUL false.

Definition set_date (g : GpsData) (v : list ascii) : GpsData :=
  mkGpsData v (time g) (lat g) (ns g) (lon g) (ew g) (speed g) (mode g) (dataReady g).
Definition set_time (g : GpsData) (v : list ascii) : GpsData :=
  mkGpsData (date g) v (lat g) (ns g) (lon g) (ew g) (speed g) (mode g) (dataReady g).
Definition set_lat (g : GpsData) (v : list ascii) : GpsData :=
  mkGpsData (date g) (time g) v (ns g) (lon g) (ew g) (speed g) (mode g) (dataReady g).
Definition set_ns (g : GpsData) (v : ascii) : GpsData :=
  mkGpsData (date g) (time g) (lat g) v (lon g) (ew g) (speed g) (mode g) (dataReady g).
Definition set_lon (g : GpsData) (v : list ascii) : GpsData :=
  mkGpsData (date g) (time g) (lat g) (ns g) v (ew g) (speed g) (mode g) (dataReady g).
Definition set_ew (g : GpsData) (v : ascii) : GpsData :=
  mkGpsData (date g) (time g) (lat g) (ns g) (lon g) v (speed g) (mode g) (dataReady g).
Definition set_speed (g : GpsData) (v : float_val) : GpsData :=
  mkGpsData (date g) (time g) (lat g) (ns g) (lon g) (ew g) v (mode g) (dataReady g).
Definition set_mode (g : GpsData) (v : ascii) : GpsData :=
  mkGpsData (date g) (time g) (lat g) (ns g) (lon g) (ew g) (speed g) v (dataReady g).
Definition set_dataReady (g : GpsData) (v : bool) : GpsData :=
  mkGpsData (date g) (time g) (lat g) (ns g) (lon g) (ew g) (speed g) (mode g) v.

(** The specification's three-valued reading of [mode], as the sketch
    tests it ([mode == 'A'], [mode == 'V']). *)
Inductive FixMode : Type := Active | Void | Unknown.

Definition fixMode (g : GpsData) : FixMode :=
  if Ascii.eqb (mode g) "A" then Active
  else if Ascii.eqb (mode g) "V" then Void
  else Unknown.

(** ** Tokenizing *)

Definition is_comma (c : ascii) : bool := Ascii.eqb c ",".

(** [strtok]'s first phase: step over leading delimiters. *)
Fixpoint skip_delims (s : list ascii) : list ascii :=
  match s with
  | [] => []
  | c :: r => if is_comma c then skip_delims r else s
  end.

(** [strtok]'s second phase: the token runs to the next delimiter, which is
    overwritten with NUL; the saved pointer is left after it (or at the end
    of the string). *)
Fixpoint span_token (s : list ascii) : list ascii * list ascii :=
  match s with
  | [] => ([], [])
  | c :: r =>
      if is_comma c then ([], r)
      else let '(t, r') := span_token r in (c :: t, r')
  end.

(** One call of [strtok(.., ",")] on the string at the scan position:
    the token ([None] for NULL) and the new saved position. *)
Definition strtok (s : list ascii) : option (list ascii) * list ascii :=
  match skip_delims s with
  | [] => (None, [])
  | s' => let '(t, r) := span_token s' in (Some t, r)
  end.

(** ** parseRMC *)

(** The body of [switch (fieldCount)] for one token; the state is the local
    [tempTime] and the global record. *)
Definition field_case (fieldCount : nat) (token : list ascii)
    (st : list ascii * GpsData) : list ascii * GpsData :=
  let '(tempTime, g) := st in
  match fieldCount with
  | 1%nat =>
      if (6 <=? strlen token)%nat
      then (store (strncpy tempTime token 6) 6 NUL, g)
      else st
  | 2%nat =>
      if (0 <? strlen token)%nat
      then (tempTime, set_mode g (char_at token 0))
      else st
  | 3%nat =>
      if (0 <? strlen token)%nat
      then (tempTime, set_lat g (store (strncpy (lat g) token 10) 10 NUL))
      else st
  | 4%nat =>
      if (0 <? strlen token)%nat
      then (tempTime, set_ns g (char_at token 0))
      else st
  | 5%nat =>
      if (0 <? strlen token)%nat
      then (tempTime, set_lon g (store (strncpy (lon g) token 10) 10 NUL))
      else st
  | 6%nat =>
      if (0 <? strlen token)%nat
      then (tempTime, set_ew g (char_at token 0))
      else st
  | 7%nat =>
      if (0 <? strlen token)%nat
      then (tempTime, set_speed g (F_knots_to_kmh token))
      else (tempTime, set_speed g F_zero)
  | 9%nat =>
      if (6 <=? strlen token)%nat
      then (tempTime,
            set_dataReady (set_date g (store (strncpy (date g) token 6) 6 NUL)) true)
      else st
  | _ => st
  end.

(** The [while (token != NULL)] loop. Each round consumes at least one
    character of the sentence, so [fuel] above its length is never used up
    ([parse_loop_traverse]). *)
Fixpoint parse_loop (fuel : nat) (token : option (list ascii))
    (save : list ascii) (fieldCount : nat) (st : list ascii * GpsData)
    : list ascii * GpsData :=
  match fuel, token with
  | S fuel', Some tok =>
      let st' := field_case fieldCount tok st in
      let '(token', save') := strtok save in
      parse_loop fuel' token' save' (S fieldCount) st'
  | _, _ => st
  end.

(** What [parseRMC] prints on the serial port. *)
Inductive SerialMsg : Type :=
| FixLine (date time lon : list ascii) (ew : ascii) (lat : list ascii)
          (ns : ascii) (speed : float_val)
| SignalLostLine.

(** The code after the loop: the conversion and the debug line when the
    record is ready and active, the lost-signal line when the mode is V. *)
Definition report (st : list ascii * GpsData) : GpsData * list SerialMsg :=
  let '(tempTime, g) := st in
  if dataReady g && Ascii.eqb (mode g) "A" then
    let g := set_time g (sprintf_into (time g) (adjustTimeZone tempTime)) in
    (g, [FixLine (c_str (date g)) (c_str (time g)) (c_str (lon g)) (ew g)
                 (c_str (lat g)) (ns g) (speed g)])
  else if Ascii.eqb (mode g) "V" then (g, [SignalLostLine])
  else (g, []).

(** [parseRMC(sentence)]. [tempTime0] is what the stack holds where the
    uninitialised local [tempTime] is placed. [sentence] is the string in
    the caller's buffer when the call is made; the NULs [strtok] leaves in
    that buffer are [strtok_effect], applied to the buffer by [feed]. *)
Definition parseRMC (tempTime0 : list ascii) (g : GpsData)
    (sentence : list ascii) : GpsData * list SerialMsg :=
  let s := c_str sentence in
  let '(token, save) := strtok s in
  let g := set_dataReady g false in
  report (parse_loop (S (length s)) token save 0 (tempTime0, g)).

(** The outcomes the specification names, read off the branch taken. *)
Inductive DecodeOutcome : Type := Updated | SignalLost | NotRmc | Malformed.

Definition outcome_of (out : list SerialMsg) : DecodeOutcome :=
  match out with
  | FixLine _ _ _ _ _ _ _ :: _ => Updated
  | SignalLostLine :: _ => SignalLost
  | [] => Malformed
  end.

(** The filter in [loop] and the call: [strstr(buffer, "GNRMC") ||
    strstr(buffer, "GPRMC")]. *)
Definition is_rmc (buffer : list ascii) : bool :=
  strstr (c_str buffer) (lit "GNRMC") || strstr (c_str buffer) (lit "GPRMC").

Definition decode (tempTime0 : list ascii) (g : GpsData)
    (buffer : list ascii) : GpsData * DecodeOutcome :=
  if is_rmc buffer then
    let '(g', out) := parseRMC tempTime0 g buffer in (g', outcome_of out)
  else (g, NotRmc).

Definition sample : list ascii :=
  lit "GPRMC,123519,A,4807.038,N,01131.000,E,022.4,084.4,230394,003.1,W*6A".

(** ** loop, part A: the sentence assembler *)

Definition BUFFER_SIZE : nat := 128.

(** [buffer] and [bufferIndex]; the index stays within 0..127, a [nat]. *)
Record Assembler : Type := mkAssembler {
  buffer : list ascii;
  bufferIndex : nat
}.

(** The globals at start-up: zero-initialised. *)
Definition asm_init : Assembler := mkAssembler (repeat NUL BUFFER_SIZE) 0.

Definition is_dollar (c : ascii) : bool := Ascii.eqb c "$".
Definition is_term (c : ascii) : bool :=
  Ascii.eqb c "010" || Ascii.eqb c "013".

(** What the [strtok] calls of [parseRMC] leave in the buffer: the comma
    that closes a token is overwritten with NUL, commas stepped over before
    a token are kept, nothing after the terminating NUL is touched. *)
Fixpoint strtok_effect (in_token : bool) (b : list ascii) : list ascii :=
  match b with
  | [] => []
  | c :: r =>
      if is_nul c then b
      else if is_comma c then
        (if in_token then NUL else c) :: strtok_effect false r
      else c :: strtok_effect true r
  end.

Definition consumer_writes (b : list ascii) : list ascii :=
  if is_rmc b then strtok_effect false b else b.

(** One pass of the [while (Serial1.available() > 0)] body for the byte
    [c]: the new assembler state and, when a sentence is closed, the
    terminated buffer that is handed on. *)
Definition feed (c : ascii) (a : Assembler) : Assembler * option (list ascii) :=
  if is_dollar c then (mkAssembler (buffer a) 0, None)
  else if is_term c then
    if (0 <? bufferIndex a)%nat then
      let b := store (buffer a) (bufferIndex a) NUL in
      (mkAssembler (consumer_writes b) 0, Some b)
    else (mkAssembler (buffer a) 0, None)
  else if (bufferIndex a <? BUFFER_SIZE - 1)%nat then
    (mkAssembler (store (buffer a) (bufferIndex a) c) (S (bufferIndex a)), None)
  else (a, None).

Fixpoint feed_all (bs : list ascii) (a : Assembler) : Assembler :=
  match bs with
  | [] => a
  | c :: r => feed_all r (fst (feed c a))
  end.

(** The byte [c] arriving after the bytes [pre] since start-up. *)
Definition emitted (pre : list ascii) (c : ascii) : option (list ascii) :=
  snd (feed c (feed_all pre asm_init)).

(** The same pass with the decoder attached, as [loop] has it. *)
Definition loop_byte (tempTime0 : list ascii) (c : ascii)
    (st : Assembler * GpsData) : (Assembler * GpsData) * option DecodeOutcome :=
  let '(a, g) := st in
  match feed c a with
  | (a', Some b) =>
      let '(g', o) := decode tempTime0 g b in ((a', g'), Some o)
  | (a', None) => ((a', g), None)
  end.

(** The bytes received since the most recent [$] or terminator (or since
    start-up): what the specification calls the sentence so far. *)
Fixpoint pending_from (acc bs : list ascii) : list ascii :=
  match bs with
  | [] => acc
  | c :: r =>
      if is_dollar c || is_term c then pending_from [] r
      else pending_from (acc ++ [c]) r
  end.

Definition pending (bs : list ascii) : list ascii := pending_from [] bs.

(** The specification's reading: the bytes after the most recent [$],
    [None] when no [$] has arrived or a terminator has closed it. *)
Fixpoint after_dollar_from (acc : option (list ascii)) (bs : list ascii)
    : option (list ascii) :=
  match bs with
  | [] => acc
  | c :: r =>
      if is_dollar c then after_dollar_from (Some []) r
      else if is_term c then after_dollar_from None r
      else after_dollar_from (option_map (fun b => b ++ [c]) acc) r
  end.

Definition after_dollar (bs : list ascii) : option (list ascii) :=
  after_dollar_from None bs.

(** ** loop, part B: the log scheduler *)

Definition LOG_INTERVAL_MS : Z := 5000.

Definition wrap32 (z : Z) : Z := z mod 2 ^ 32.

(** [unsigned long] subtraction *)
Definition sub32 (a b : Z) : Z := wrap32 (a - b).

Inductive LogAction : Type :=
| WriteRecord (line : SerialMsg)
| WriteError
| ReportLost
| ReportNotReady.

(** The branch taken once the interval test has passed; [opened] is whether
    [SD.open] returned a file. *)
Definition log_action (g : GpsData) (opened : bool) : LogAction :=
  if dataReady g && Ascii.eqb (mode g) "A" then
    if opened then
      WriteRecord (FixLine (c_str (date g)) (c_str (time g)) (c_str (lon g))
                           (ew g) (c_str (lat g)) (ns g) (speed g))
    else WriteError
  else if Ascii.eqb (mode g) "V" then ReportLost
  else ReportNotReady.

(** Part B of [loop] at [currentMillis]: the new [lastLogTime] and the
    action, [None] when the interval test fails. *)
Definition tick (currentMillis lastLogTime : Z) (g : GpsData) (opened : bool)
    : Z * option LogAction :=
  if LOG_INTERVAL_MS <=? sub32 currentMillis lastLogTime
  then (currentMillis, Some (log_action g opened))
  else (lastLogTime, None).

(** A call of [loop]: the time elapsed since start-up (not wrapped), the
    record at that moment, and the outcome of [SD.open]. *)
Definition Call : Type := (Z * GpsData * bool)%type.

Definition call_time (c : Call) : Z := fst (fst c).

(** [millis()] at elapsed time [t]. *)
Definition millis (t : Z) : Z := wrap32 t.

(** The elapsed times at which a run of calls fires, from [lastLogTime]. *)
Fixpoint fire_times (lastLogTime : Z) (calls : list Call) : list Z :=
  match calls with
  | [] => []
  | (t, g, opened) :: r =>
      match tick (millis t) lastLogTime g opened with
      | (last', Some _) => t :: fire_times last' r
      | (last', None) => fire_times last' r
      end
  end.

(** ** Reference encodings used in the statements *)

Definition digit_char (d : Z) : ascii := ascii_of_nat (Z.to_nat (48 + d)).

Definition two_digits (n : Z) : list ascii :=
  [digit_char (n / 10); digit_char (n mod 10)].

(** The six characters HHMMSS of a time of day. *)
Definition hhmmss (h m s : Z) : list ascii :=
  two_digits h ++ two_digits m ++ two_digits s.

Definition seconds_of_day (h m s : Z) : Z := h * 3600 + m * 60 + s.

Definition list_ascii_eqb (a b : list ascii) : bool :=
  if list_eq_dec ascii_dec a b then true else false.

(** The specification's positional fields: the sentence split at every
    comma, empty fields kept (a sentence with k commas has k+1 fields). *)
Fixpoint fields (s : list ascii) : list (list ascii) :=
  match s with
  | [] => [[]]
  | c :: r =>
      if is_comma c then [] :: fields r
      else match fields r with
           | f :: fs => (c :: f) :: fs
           | [] => [[c]]
           end
  end.

Definition nonempty (t : list ascii) : bool :=
  match t with [] => false | _ :: _ => true end.

(** The tokens the [strtok] loop visits, in order ([strtok_tokens]). *)
Definition tokens (s : list ascii) : list (list ascii) :=
  filter nonempty (fields s).

(** The loop of [parseRMC] over a list of tokens. *)
Fixpoint traverse (fieldCount : nat) (toks : list (list ascii))
    (st : list ascii * GpsData) : list ascii * GpsData :=
  match toks with
  | [] => st
  | t :: r => traverse (S fieldCount) r (field_case fieldCount t st)
  end.

(** The switch applied to the token at index [i], when there is one. *)
Definition at_index (i : nat) (toks : list (list ascii))
    (st : list ascii * GpsData) : list ascii * GpsData :=
  match nth_error toks i with
  | Some t => field_case i t st
  | None => st
  end.

(** The positional field [i] of a sentence, as a string. *)
Definition field (sentence : list ascii) (i : nat) : option (list ascii) :=
  nth_error (fields (c_str sentence)) i.

(** No empty field among the first [n] positional fields. *)
Definition no_empty_field (n : nat) (sentence : list ascii) : bool :=
  forallb nonempty (firstn n (fields (c_str sentence))).

(** Selection on the token at index [i]: [f] of it, [d] when the sentence
    has no such token. *)
Definition on_token {A} (toks : list (list ascii)) (i : nat)
    (f : list ascii -> A) (d : A) : A :=
  match nth_error toks i with
  | Some t => f t
  | None => d
  end.

(** The state the loop of [parseRMC] ends in, member by member. *)
Definition traversed (toks : list (list ascii)) (tempTime0 : list ascii)
    (g : GpsData) : list ascii * GpsData :=
  (on_token toks 1
     (fun t => if (6 <=? strlen t)%nat
               then store (strncpy tempTime0 t 6) 6 NUL else tempTime0)
     tempTime0,
   mkGpsData
     (on_token toks 9
        (fun t => if (6 <=? strlen t)%nat
                  then store (strncpy (date g) t 6) 6 NUL else date g)
        (date g))
     (time g)
     (on_token toks 3
        (fun t => if (0 <? strlen t)%nat
                  then store (strncpy (lat g) t 10) 10 NUL else lat g)
        (lat g))
     (on_token toks 4
        (fun t => if (0 <? strlen t)%nat then char_at t 0 else ns g) (ns g))
     (on_token toks 5
        (fun t => if (0 <? strlen t)%nat
                  then store (strncpy (lon g) t 10) 10 NUL else lon g)
        (lon g))
     (on_token toks 6
        (fun t => if (0 <? strlen t)%nat then char_at t 0 else ew g) (ew g))
     (on_token toks 7
        (fun t => if (0 <? strlen t)%nat then F_knots_to_kmh t else F_zero)
        (speed g))
     (on_token toks 2
        (fun t => if (0 <? strlen t)%nat then char_at t 0 else mode g) (mode g))
     (on_token toks 9 (fun t => (6 <=? strlen t)%nat) false)).

Definition nul_free (l : list ascii) : bool := forallb (fun c => negb (is_nul c)) l.

(** Sentences used in the statements below. *)

(** What a receiver without a fix sends: time and position empty. *)
Definition sample_void : list ascii := lit "GPRMC,,V,,,,,,,,,,N*53".

(** The reference sentence with the speed field left empty. *)
Definition sample_no_speed : list ascii :=
  lit "GPRMC,123519,A,4807.038,N,01131.000,E,,084.4,230394,003.1,W*6A".

(** A status that is neither A nor V. *)
Definition sample_status_x : list ascii :=
  lit "GPRMC,123519,X,4807.038,N,01131.000,E,022.4,084.4,230394,003.1,W*6A".

(** Status V and a date of four characters. *)
Definition sample_void_short_date : list ascii :=
  lit "GPRMC,123519,V,4807.038,N,01131.000,E,022.4,084.4,2303".

(** Status V, every field filled in. *)
Definition sample_void_full : list ascii :=
  lit "GPRMC,123519,V,4807.038,N,01131.000,E,022.4,084.4,230394,003.1,W*6A".

(** A time field of two digits. *)
Definition sample_short_time : list ascii :=
  lit "GPRMC,12,A,4807.038,N,01131.000,E,022.4,084.4,230394".

(** The invariant of the assembler after the bytes whose pending part is
    [acc]: the buffer keeps its size and holds, below the cursor, the
    pending bytes cut at capacity. *)
Definition asm_holds (a : Assembler) (acc : list ascii) : Prop :=
  length (buffer a) = BUFFER_SIZE
  /\ bufferIndex a = length (firstn (BUFFER_SIZE - 1) acc)
  /\ firstn (bufferIndex a) (buffer a) = firstn (BUFFER_SIZE - 1) acc.

(** Two fires (elapsed times) at least one interval apart. *)
Definition spaced (a b : Z) : Prop := a + LOG_INTERVAL_MS <= b.

Definition calls_at (ts : list Z) : list Call :=
  map (fun t => (t, gps_zero, true)) ts.

Definition is_digit (c : ascii) : bool :=
  (char_val "0" <=? char_val c) && (char_val c <=? char_val "9").

(** The strings of the record fit their arrays: NUL-terminated, of length
    at most 6, 6, 10 and 10. *)
Definition fix_strings_ok (g : GpsData) : Prop :=
  (length (date g) = 7%nat /\ (strlen (date g) <= 6)%nat)
  /\ (length (time g) = 7%nat /\ (strlen (time g) <= 6)%nat)
  /\ (length (lat g) = 11%nat /\ (strlen (lat g) <= 10)%nat)
  /\ (length (lon g) = 11%nat /\ (strlen (lon g) <= 10)%nat).

(** The time token has six characters or more, the first six digits. *)
Definition time_token_ok (sentence : list ascii) : bool :=
  on_token (tokens (c_str sentence)) 1
    (fun t => (6 <=? length t)%nat && forallb is_digit (firstn 6 t)) false.

(** The date field empty, a longer field after it. *)
Definition sample_empty_date : list ascii :=
  lit "GPRMC,123519,A,4807.038,N,01131.000,E,022.4,084.4,,003.1234".

(** ** Further definitions: runs of the loop, reachable states *)

(** The time token has six characters or more. *)
Definition time_token_long (sentence : list ascii) : bool :=
  on_token (tokens (c_str sentence)) 1 (fun t => (6 <=? length t)%nat) false.

Definition comma : ascii := ","%char.

Definition CR : ascii := "013"%char.
Definition LF : ascii := "010"%char.
Definition dollar : ascii := "$"%char.

(** The strings of the sentences handed on while the bytes [bs] are fed. *)
Fixpoint feed_out (bs : list ascii) (a : Assembler) : list (list ascii) :=
  match bs with
  | [] => []
  | c :: r =>
      match feed c a with
      | (a', Some b) => c_str b :: feed_out r a'
      | (a', None) => feed_out r a'
      end
  end.

(** Part A of [loop] over the bytes [bs]: the state it ends in and the
    outcomes of the decodes, in order. *)
Fixpoint loop_bytes (tempTime0 : list ascii) (bs : list ascii)
    (st : Assembler * GpsData) : (Assembler * GpsData) * list DecodeOutcome :=
  match bs with
  | [] => (st, [])
  | c :: r =>
      let '(st', o) := loop_byte tempTime0 c st in
      let '(st'', os) := loop_bytes tempTime0 r st' in
      (st'', match o with Some x => x :: os | None => os end)
  end.

(** The states [loop] can be in: the start-up state, and any state reached
    from one of them by one more byte, whatever the stack holds then. *)
Inductive reachable : Assembler * GpsData -> Prop :=
| reachable_init : reachable (asm_init, gps_zero)
| reachable_byte st tempTime0 c :
    reachable st -> reachable (fst (loop_byte tempTime0 c st)).

(** The arrays [date] and [lon], which no write of [sprintf] can reach
    ([date] lies before [time]; an overrun of [time] ends in the first
    bytes of [lat]), hold terminated strings. *)
Definition date_lon_ok (g : GpsData) : Prop :=
  (length (date g) = 7%nat /\ (strlen (date g) <= 6)%nat)
  /\ (length (lon g) = 11%nat /\ (strlen (lon g) <= 10)%nat).

(** The bytes of one NMEA frame: [$], the sentence, CR, LF. *)
Definition frame (s : list ascii) : list ascii := dollar :: s ++ [CR; LF].

(** No [$] and no terminator among the bytes. *)
Definition frame_clean (s : list ascii) : bool :=
  forallb (fun c => negb (is_dollar c || is_term c)) s.

(** The schedule on a clock that never wraps: a call fires when 5000 ms or
    more have passed since the last fire, which then moves to that call. *)
Fixpoint due_times (last : Z) (ts : list Z) : list Z :=
  match ts with
  | [] => []
  | t :: r =>
      if LOG_INTERVAL_MS <=? t - last then t :: due_times t r
      else due_times last r
  end.

(** The check behind [fmt_02d_length], for one absolute value. *)
Definition fmt_short (k : nat) : bool :=
  (length (fmt_02d (Z.of_nat k)) <=? 4)%nat
  && ((1000 <=? k)%nat || (length (fmt_02d (- Z.of_nat k)) <=? 4)%nat)
  && ((100 <=? k)%nat
      || ((length (fmt_02d (Z.of_nat k)) <=? 3)%nat
          && (length (fmt_02d (- Z.of_nat k)) <=? 3)%nat)).

(** * Properties *)

(** ** Evaluation on samples *)

Example adjust_123519 : adjustTimeZone (lit "123519") = lit "180519".
Proof. reflexivity. Qed.

Example adjust_235959 : adjustTimeZone (lit "235959") = lit "052959".
Proof. reflexivity. Qed.

Example adjust_zeros : adjustTimeZone (repeat NUL 7) = lit "-3-18-528".
Proof. reflexivity. Qed.

Example decode_sample :
  let '(g, o) := decode (repeat NUL 7) gps_zero sample in
  o = Updated /\ c_str (date g) = lit "230394" /\ c_str (time g) = lit "180519"
  /\ c_str (lat g) = lit "4807.038" /\ ns g = "N"%char
  /\ c_str (lon g) = lit "01131.000" /\ ew g = "E"%char
  /\ speed g = F_knots_to_kmh (lit "022.4") /\ fixMode g = Active.
Proof. vm_compute. repeat split. Qed.

Example fire_times_ex :
  fire_times 0 (map (fun t => (t, gps_zero, true))
                    [1200; 4999; 5000; 5001; 9999; 10000; 10003; 15002; 15003])
  = [5000; 10000; 15002].
Proof. reflexivity. Qed.

Example emitted_ex :
  option_map c_str (emitted (lit "xx$GP$ab") "010"%char) = Some (lit "ab").
Proof. reflexivity. Qed.

(** ** UTC to local time *)

Lemma list_ascii_eqb_eq a b : list_ascii_eqb a b = true -> a = b.
Proof. unfold list_ascii_eqb. destruct (list_eq_dec ascii_dec a b); easy. Qed.

Lemma below_100_cases (P : Z -> Prop) (n : Z) :
  0 <= n < 100 ->
  (forall k : nat, In k (seq 0 100) -> P (Z.of_nat k)) -> P n.
Proof.
  intros Hn H. rewrite <- (Z2Nat.id n) by lia.
  apply H, in_seq. lia.
Qed.

Lemma fmt_02d_two_digits n : 0 <= n < 100 -> fmt_02d n = two_digits n.
Proof.
  intros Hn. apply (below_100_cases (fun n => fmt_02d n = two_digits n) n Hn).
  intros k Hk. apply list_ascii_eqb_eq. revert k Hk.
  apply forallb_forall. vm_compute. reflexivity.
Qed.

Lemma char_val_digit_char d :
  0 <= d <= 9 -> char_val (digit_char d) - char_val "0"%char = d.
Proof.
  intros Hd.
  assert (H : d = 0 \/ d = 1 \/ d = 2 \/ d = 3 \/ d = 4 \/ d = 5 \/ d = 6
              \/ d = 7 \/ d = 8 \/ d = 9) by lia.
  repeat (destruct H as [-> | H]; [reflexivity |]). subst d. reflexivity.
Qed.

Lemma two_digits_value n (r : list ascii) :
  0 <= n < 100 ->
  digit_at (two_digits n ++ r) 0 * 10 + digit_at (two_digits n ++ r) 1 = n.
Proof.
  intros Hn. unfold digit_at, char_at, two_digits. cbn [nth app].
  rewrite !char_val_digit_char.
  - pose proof (Z.div_mod n 10). lia.
  - pose proof (Z.mod_pos_bound n 10). lia.
  - split; [apply Z.div_pos; lia | apply Z.lt_succ_r, Z.div_lt_upper_bound; lia].
Qed.

Lemma adjusted_hhmmss h m s :
  0 <= h < 100 -> 0 <= m < 100 -> 0 <= s < 100 ->
  adjusted (hhmmss h m s)
  = ((h + (TZ_HOURS + (m + TZ_MINUTES) / 60)) mod 24, (m + TZ_MINUTES) mod 60, s).
Proof.
  intros Hh Hm Hs. unfold adjusted.
  pose proof (two_digits_value h (two_digits m ++ two_digits s) Hh) as E1.
  pose proof (two_digits_value m (two_digits s) Hm) as E2.
  pose proof (two_digits_value s [] Hs) as E3.
  unfold hhmmss.
  change (digit_at (two_digits h ++ two_digits m ++ two_digits s) 2)
    with (digit_at (two_digits m ++ two_digits s) 0).
  change (digit_at (two_digits h ++ two_digits m ++ two_digits s) 3)
    with (digit_at (two_digits m ++ two_digits s) 1).
  change (digit_at (two_digits h ++ two_digits m ++ two_digits s) 4)
    with (digit_at (two_digits s ++ []) 0).
  change (digit_at (two_digits h ++ two_digits m ++ two_digits s) 5)
    with (digit_at (two_digits s ++ []) 1).
  rewrite E1, E2, E3. unfold TZ_HOURS, TZ_MINUTES.
  rewrite Z.quot_div_nonneg by lia.
  assert (0 <= (m + 30) / 60) by (apply Z.div_pos; lia).
  rewrite !Z.rem_mod_nonneg by lia.
  reflexivity.
Qed.

Lemma digit_char_of_digit c :
  is_digit c = true -> digit_char (char_val c - char_val "0") = c.
Proof.
  unfold is_digit, digit_char, char_val. intros H.
  apply andb_true_iff in H as [H1 H2]. apply Z.leb_le in H1, H2.
  change (Z.of_nat (nat_of_ascii "0")) with 48 in *.
  replace (48 + (Z.of_nat (nat_of_ascii c) - 48)) with (Z.of_nat (nat_of_ascii c)) by lia.
  rewrite Nat2Z.id. apply ascii_nat_embedding.
Qed.

Lemma two_digits_of_chars c0 c1 :
  is_digit c0 = true -> is_digit c1 = true ->
  let n := (char_val c0 - char_val "0") * 10 + (char_val c1 - char_val "0") in
  0 <= n < 100 /\ two_digits n = [c0; c1].
Proof.
  intros H0 H1 n.
  pose proof (digit_char_of_digit c0 H0) as E0.
  pose proof (digit_char_of_digit c1 H1) as E1.
  unfold is_digit in H0, H1.
  apply andb_true_iff in H0 as [A0 B0]. apply andb_true_iff in H1 as [A1 B1].
  apply Z.leb_le in A0, B0, A1, B1.
  change (char_val "9") with 57 in *. change (char_val "0") with 48 in *.
  split; [subst n; lia |].
  unfold two_digits.
  replace (n / 10) with (char_val c0 - 48)
    by (subst n; apply (Z.div_unique _ _ _ (char_val c1 - 48)); lia).
  replace (n mod 10) with (char_val c1 - 48)
    by (subst n; apply (Z.mod_unique _ _ (char_val c0 - 48)); lia).
  rewrite E0, E1. reflexivity.
Qed.

(** Every string of six decimal digits is [hhmmss] of its three numbers. *)
Lemma six_digits_hhmmss utc :
  length utc = 6%nat -> forallb is_digit utc = true ->
  exists h m s, 0 <= h < 100 /\ 0 <= m < 100 /\ 0 <= s < 100
                /\ utc = hhmmss h m s.
Proof.
  intros Hl Hd.
  do 6 (destruct utc as [| ? utc]; [discriminate |]).
  destruct utc; [| discriminate].
  cbn [forallb] in Hd.
  repeat (apply andb_true_iff in Hd as [? Hd]).
  destruct (two_digits_of_chars a a0) as [B1 E1]; auto.
  destruct (two_digits_of_chars a1 a2) as [B2 E2]; auto.
  destruct (two_digits_of_chars a3 a4) as [B3 E3]; auto.
  eexists _, _, _. split; [exact B1 |]. split; [exact B2 |].
  split; [exact B3 |]. unfold hhmmss. rewrite E1, E2, E3. reflexivity.
Qed.

(** C3, as amended: for every time of day HHMMSS (hours 0..23, minutes and
    seconds 0..59) the conversion returns the six digits of the time plus
    5 h 30 min modulo 24 hours: the minute overflow is carried into the
    hours, the hours are taken modulo 24, the seconds are unchanged, each
    part is written with two digits; 123519 gives 180519. *)
Theorem adjustTimeZone_adds_offset (h m s : Z) :
  0 <= h <= 23 -> 0 <= m <= 59 -> 0 <= s <= 59 ->
  let h' := (h + TZ_HOURS + (m + TZ_MINUTES) / 60) mod 24 in
  let m' := (m + TZ_MINUTES) mod 60 in
  adjustTimeZone (hhmmss h m s) = hhmmss h' m' s
  /\ 0 <= h' <= 23 /\ 0 <= m' <= 59
  /\ seconds_of_day h' m' s
     = (seconds_of_day h m s + seconds_of_day TZ_HOURS TZ_MINUTES 0) mod 86400
  /\ adjustTimeZone (lit "123519") = lit "180519".
Proof.
  intros Hh Hm Hs h' m'.
  assert (Hh' : 0 <= h' < 24) by (apply Z.mod_pos_bound; lia).
  assert (Hm' : 0 <= m' < 60) by (apply Z.mod_pos_bound; lia).
  split; [| split; [lia | split; [lia | split; [| reflexivity]]]].
  - unfold adjustTimeZone. rewrite adjusted_hhmmss by lia.
    replace (h + (TZ_HOURS + (m + TZ_MINUTES) / 60))
      with (h + TZ_HOURS + (m + TZ_MINUTES) / 60) by lia.
    fold h' m'. rewrite !fmt_02d_two_digits by lia. reflexivity.
  - subst h' m'. unfold seconds_of_day, TZ_HOURS, TZ_MINUTES in *.
    Z.div_mod_to_equations. lia.
Qed.

Lemma adjustTimeZone_adds_offset_witness :
  (0 <= 23 <= 23 /\ 0 <= 45 <= 59 /\ 0 <= 59 <= 59)
  /\ adjustTimeZone (hhmmss 23 45 59) = hhmmss 5 15 59.
Proof.
  split; [lia |].
  apply (adjustTimeZone_adds_offset 23 45 59); lia.
Defined.

(** C3, as stated, fails on its own example: 123519 does not give 180019. *)
Lemma adjustTimeZone_123519_not_180019 :
  adjustTimeZone (lit "123519") <> lit "180019".
Proof. vm_compute. discriminate. Qed.

(** ** The tokenizer *)

Lemma span_token_fields s :
  exists fs, fields s = fst (span_token s) :: fs
             /\ filter nonempty fs = tokens (snd (span_token s)).
Proof.
  induction s as [| c r IH]; cbn [span_token fields].
  - exists []. split; reflexivity.
  - destruct (is_comma c).
    + exists (fields r). split; reflexivity.
    + destruct IH as (fs & E & F). destruct (span_token r) as [t r'].
      rewrite E. exists fs. split; [reflexivity | exact F].
Qed.

Lemma tokens_skip_delims s : tokens (skip_delims s) = tokens s.
Proof.
  induction s as [| c r IH]; [reflexivity |].
  cbn [skip_delims]. destruct (is_comma c) eqn:E; [| reflexivity].
  rewrite IH. unfold tokens. cbn [fields]. rewrite E. reflexivity.
Qed.

Lemma span_token_length s :
  (length (snd (span_token s)) <= length s)%nat.
Proof.
  induction s as [| c r IH]; cbn [span_token]; [apply Nat.le_refl |].
  destruct (is_comma c); cbn [snd length]; [lia |].
  destruct (span_token r); cbn [snd] in *. lia.
Qed.

Lemma skip_delims_length s : (length (skip_delims s) <= length s)%nat.
Proof.
  induction s as [| c r IH]; cbn [skip_delims]; [apply Nat.le_refl |].
  destruct (is_comma c); cbn [length]; lia.
Qed.

Lemma skip_delims_head s c r :
  skip_delims s = c :: r -> is_comma c = false.
Proof.
  induction s as [| d s' IH]; cbn [skip_delims]; [discriminate |].
  destruct (is_comma d) eqn:E; [exact IH |].
  intros H. injection H as -> _. exact E.
Qed.

(** One call of [strtok] against the token list. *)
Lemma strtok_tokens s :
  match strtok s with
  | (None, _) => tokens s = []
  | (Some t, r) => tokens s = t :: tokens r /\ (length r < length s)%nat
  end.
Proof.
  unfold strtok. rewrite <- (tokens_skip_delims s).
  pose proof (skip_delims_length s) as L.
  destruct (skip_delims s) as [| c r] eqn:E; [reflexivity |].
  pose proof (skip_delims_head _ _ _ E) as Hc.
  destruct (span_token_fields (c :: r)) as (fs & F & G).
  pose proof (span_token_length r) as L'.
  cbn [span_token] in *. rewrite Hc in *.
  destruct (span_token r) as [t r']. cbn [fst snd length] in *.
  split; [| lia].
  unfold tokens at 1. rewrite F. cbn [filter nonempty]. rewrite G. reflexivity.
Qed.

(** The fuel of [parseRMC] is enough: the loop visits every token. *)
Lemma parse_loop_traverse fuel : forall s n st,
  (length s < fuel)%nat ->
  parse_loop fuel (fst (strtok s)) (snd (strtok s)) n st
  = traverse n (tokens s) st.
Proof.
  induction fuel as [| fuel IH]; intros s n st Hf; [lia |].
  pose proof (strtok_tokens s) as H.
  destruct (strtok s) as [[t |] r]; cbn [fst snd parse_loop].
  - destruct H as [-> Hr]. cbn [traverse].
    rewrite <- IH by lia. destruct (strtok r). reflexivity.
  - rewrite H. reflexivity.
Qed.

Lemma parseRMC_traverse tempTime0 g sentence :
  parseRMC tempTime0 g sentence
  = report (traverse 0 (tokens (c_str sentence))
                     (tempTime0, set_dataReady g false)).
Proof.
  unfold parseRMC.
  rewrite <- (parse_loop_traverse (S (length (c_str sentence)))) by lia.
  destruct (strtok (c_str sentence)). reflexivity.
Qed.

Lemma traverse_past_9 toks : forall n st,
  (10 <= n)%nat -> traverse n toks st = st.
Proof.
  induction toks as [| t r IH]; intros n st Hn; [reflexivity |].
  cbn [traverse]. rewrite IH by lia.
  do 10 (destruct n as [| n]; [lia |]). destruct st. reflexivity.
Qed.

Lemma field_case_0 t st : field_case 0 t st = st.
Proof. destruct st. reflexivity. Qed.

Lemma field_case_8 t st : field_case 8 t st = st.
Proof. destruct st. reflexivity. Qed.

(** The loop in closed form: only the tokens at indices 1..7 and 9 act. *)
Lemma traverse_at_index toks st :
  traverse 0 toks st
  = at_index 9 toks (at_index 7 toks (at_index 6 toks (at_index 5 toks
      (at_index 4 toks (at_index 3 toks (at_index 2 toks
        (at_index 1 toks st))))))).
Proof.
  unfold at_index.
  do 10 (destruct toks as [| ? toks];
         [cbn [traverse nth_error]; rewrite ?field_case_0, ?field_case_8;
          reflexivity |]).
  cbn [traverse nth_error]. rewrite traverse_past_9 by lia.
  rewrite field_case_0, field_case_8. reflexivity.
Qed.

(** Where no earlier field is empty, token [k] is positional field [k]. *)
Lemma nth_error_filter_prefix {A} (p : A -> bool) (l : list A) : forall k,
  forallb p (firstn (S k) l) = true ->
  nth_error (filter p l) k = nth_error l k.
Proof.
  induction l as [| x l IH]; intros k H; [reflexivity |].
  cbn [firstn forallb] in H. apply andb_true_iff in H as [Hx H].
  cbn [filter]. rewrite Hx. destruct k as [| k]; [reflexivity |].
  cbn [nth_error]. apply IH, H.
Qed.

Lemma forallb_firstn_le {A} (p : A -> bool) (l : list A) : forall n m,
  (m <= n)%nat -> forallb p (firstn n l) = true ->
  forallb p (firstn m l) = true.
Proof.
  induction l as [| x l IH]; intros n m Hm H.
  - rewrite firstn_nil. reflexivity.
  - destruct m as [| m]; [reflexivity |]. destruct n as [| n]; [lia |].
    cbn [firstn forallb] in *. apply andb_true_iff in H as [Hx H].
    rewrite Hx. apply (IH n); [lia | exact H].
Qed.

Lemma token_is_field sentence n k :
  no_empty_field n sentence = true -> (k < n)%nat ->
  nth_error (tokens (c_str sentence)) k = field sentence k.
Proof.
  intros H Hk. apply nth_error_filter_prefix.
  apply (forallb_firstn_le _ _ n); [lia | exact H].
Qed.

Lemma traverse_traversed toks tempTime0 g :
  traverse 0 toks (tempTime0, set_dataReady g false) = traversed toks tempTime0 g.
Proof.
  rewrite traverse_at_index. unfold at_index, traversed, on_token.
  destruct g as [d t la n lo e sp mo dr].
  destruct (nth_error toks 1) as [t1 |]; cbn [field_case];
    [destruct (6 <=? strlen t1)%nat |];
  (destruct (nth_error toks 2) as [t2 |]; cbn [field_case];
    [destruct (0 <? strlen t2)%nat |]);
  (destruct (nth_error toks 3) as [t3 |]; cbn [field_case];
    [destruct (0 <? strlen t3)%nat |]);
  (destruct (nth_error toks 4) as [t4 |]; cbn [field_case];
    [destruct (0 <? strlen t4)%nat |]);
  (destruct (nth_error toks 5) as [t5 |]; cbn [field_case];
    [destruct (0 <? strlen t5)%nat |]);
  (destruct (nth_error toks 6) as [t6 |]; cbn [field_case];
    [destruct (0 <? strlen t6)%nat |]);
  (destruct (nth_error toks 7) as [t7 |]; cbn [field_case];
    [destruct (0 <? strlen t7)%nat |]);
  (destruct (nth_error toks 9) as [t9 |]; cbn [field_case];
    [destruct (6 <=? strlen t9)%nat |]);
  reflexivity.
Qed.

Lemma parseRMC_traversed tempTime0 g sentence :
  parseRMC tempTime0 g sentence
  = report (traversed (tokens (c_str sentence)) tempTime0 g).
Proof. rewrite parseRMC_traverse, traverse_traversed. reflexivity. Qed.

(** ** C strings *)

Lemma c_str_nul_free a : nul_free (c_str a) = true.
Proof.
  induction a as [| c r IH]; [reflexivity |]. cbn [c_str].
  destruct (is_nul c) eqn:E; [reflexivity |].
  cbn [nul_free forallb]. rewrite E. exact IH.
Qed.

Lemma nul_free_c_str l : nul_free l = true -> c_str l = l.
Proof.
  induction l as [| c r IH]; [reflexivity |].
  cbn [nul_free forallb c_str]. intros H. apply andb_true_iff in H as [Hc Hr].
  apply negb_true_iff in Hc. rewrite Hc. f_equal. apply IH, Hr.
Qed.

Lemma fields_nul_free s :
  nul_free s = true -> Forall (fun t => nul_free t = true) (fields s).
Proof.
  induction s as [| c r IH]; intros H.
  - repeat constructor.
  - cbn [nul_free forallb] in H. apply andb_true_iff in H as [Hc Hr].
    specialize (IH Hr). cbn [fields]. destruct (is_comma c).
    + constructor; [reflexivity | exact IH].
    + destruct (fields r) as [| f fs].
      * repeat constructor. cbn. rewrite Hc. reflexivity.
      * inversion IH as [| ? ? Hf Hfs]; subst. constructor; [| exact Hfs].
        cbn [nul_free forallb]. rewrite Hc. exact Hf.
Qed.

Lemma field_strlen sentence k t :
  field sentence k = Some t -> strlen t = length t.
Proof.
  intros H. unfold strlen. f_equal. apply nul_free_c_str.
  pose proof (fields_nul_free _ (c_str_nul_free sentence)) as F.
  rewrite Forall_forall in F. apply F. eapply nth_error_In, H.
Qed.

Lemma token_strlen sentence k t :
  nth_error (tokens (c_str sentence)) k = Some t ->
  strlen t = length t /\ (0 < length t)%nat.
Proof.
  intros H. apply nth_error_In in H. apply filter_In in H as [Hin Hne].
  split.
  - unfold strlen. f_equal. apply nul_free_c_str.
    pose proof (fields_nul_free _ (c_str_nul_free sentence)) as F.
    rewrite Forall_forall in F. apply F, Hin.
  - destruct t; [discriminate | cbn; lia].
Qed.

(** ** What [report] leaves alone *)

Lemma report_members st :
  let g := snd st in
  let g' := fst (report st) in
  date g' = date g /\ lat g' = lat g /\ ns g' = ns g /\ lon g' = lon g
  /\ ew g' = ew g /\ speed g' = speed g /\ mode g' = mode g
  /\ dataReady g' = dataReady g.
Proof.
  destruct st as [tt g]. unfold report. cbn [snd].
  destruct (dataReady g && Ascii.eqb (mode g) "A");
    [| destruct (Ascii.eqb (mode g) "V")]; cbn; repeat split.
Qed.

Lemma report_void st :
  mode (snd st) = "V"%char -> report st = (snd st, [SignalLostLine]).
Proof.
  destruct st as [tt g]. cbn [snd]. intros H. unfold report. rewrite H.
  rewrite andb_false_r. reflexivity.
Qed.

Lemma report_not_ready st :
  dataReady (snd st) = false ->
  report st = (snd st, if Ascii.eqb (mode (snd st)) "V"
                       then [SignalLostLine] else []).
Proof.
  destruct st as [tt g]. cbn [snd]. intros H. unfold report. rewrite H.
  cbn [andb]. destruct (Ascii.eqb (mode g) "V"); reflexivity.
Qed.

Lemma report_updated st :
  dataReady (snd st) = true -> mode (snd st) = "A"%char ->
  time (fst (report st)) = sprintf_into (time (snd st)) (adjustTimeZone (fst st))
  /\ outcome_of (snd (report st)) = Updated.
Proof.
  destruct st as [tt g]. cbn [snd fst]. intros H1 H2. unfold report.
  rewrite H1, H2. cbn. split; reflexivity.
Qed.

(** The members after [parseRMC], from the tokens. *)
Lemma parseRMC_mode tempTime0 g sentence :
  mode (fst (parseRMC tempTime0 g sentence))
  = on_token (tokens (c_str sentence)) 2 (fun t => char_at t 0) (mode g).
Proof.
  rewrite parseRMC_traversed.
  destruct (report_members (traversed (tokens (c_str sentence)) tempTime0 g))
    as (_ & _ & _ & _ & _ & _ & -> & _).
  unfold traversed, on_token. cbn [snd mode].
  destruct (nth_error (tokens (c_str sentence)) 2) as [t |] eqn:E; [| reflexivity].
  destruct (token_strlen _ _ _ E) as [-> Hpos].
  apply Nat.ltb_lt in Hpos. rewrite Hpos. reflexivity.
Qed.

Lemma parseRMC_speed tempTime0 g sentence :
  speed (fst (parseRMC tempTime0 g sentence))
  = on_token (tokens (c_str sentence)) 7 F_knots_to_kmh (speed g).
Proof.
  rewrite parseRMC_traversed.
  destruct (report_members (traversed (tokens (c_str sentence)) tempTime0 g))
    as (_ & _ & _ & _ & _ & -> & _).
  unfold traversed, on_token. cbn [snd speed].
  destruct (nth_error (tokens (c_str sentence)) 7) as [t |] eqn:E; [| reflexivity].
  destruct (token_strlen _ _ _ E) as [-> Hpos].
  apply Nat.ltb_lt in Hpos. rewrite Hpos. reflexivity.
Qed.

Lemma parseRMC_dataReady tempTime0 g sentence :
  dataReady (fst (parseRMC tempTime0 g sentence))
  = on_token (tokens (c_str sentence)) 9 (fun t => (6 <=? length t)%nat) false.
Proof.
  rewrite parseRMC_traversed.
  destruct (report_members (traversed (tokens (c_str sentence)) tempTime0 g))
    as (_ & _ & _ & _ & _ & _ & _ & ->).
  unfold traversed, on_token. cbn [snd dataReady].
  destruct (nth_error (tokens (c_str sentence)) 9) as [t |] eqn:E; [| reflexivity].
  destruct (token_strlen _ _ _ E) as [-> _]. reflexivity.
Qed.

(** ** Fields by position *)

(** Where none of the first ten fields is empty, the decoder's tokens are
    the positional fields, and every member is read from its own index. *)
Lemma parseRMC_positional tempTime0 g sentence :
  no_empty_field 10 sentence = true ->
  parseRMC tempTime0 g sentence
  = report (traversed (fields (c_str sentence)) tempTime0 g).
Proof.
  intros H. rewrite parseRMC_traversed. unfold traversed, on_token.
  rewrite !(token_is_field sentence 10) by (exact H || lia).
  reflexivity.
Qed.

(** C1: the decoder does not assign fields by absolute comma position once
    a field is empty. In the sentence of a receiver without a fix, field 2
    is V, yet the mode is taken from the last field and no lost-signal line
    is printed; with an empty speed field, field 9 holds the date, yet the
    date is not stored and the speed is taken from field 8. *)
Theorem parseRMC_empty_fields_shift (tempTime0 : list ascii) :
  (field sample_void 2 = Some (lit "V")
   /\ mode (fst (parseRMC tempTime0 gps_zero sample_void)) = "N"%char
   /\ snd (parseRMC tempTime0 gps_zero sample_void) = [])
  /\ (field sample_no_speed 9 = Some (lit "230394")
      /\ field sample_no_speed 8 = Some (lit "084.4")
      /\ c_str (date (fst (parseRMC tempTime0 gps_zero sample_no_speed))) = []
      /\ dataReady (fst (parseRMC tempTime0 gps_zero sample_no_speed)) = false
      /\ speed (fst (parseRMC tempTime0 gps_zero sample_no_speed))
         = F_knots_to_kmh (lit "084.4")).
Proof.
  rewrite !parseRMC_traversed. repeat split.
Qed.

(** ** Status *)

(** C4, as amended: where the fields before it are not empty, a non-empty
    status field has its first character stored as the mode, whatever the
    character: A reads as Active, V as Void, any other character replaces
    the previous mode and reads as neither. *)
Theorem parseRMC_status_stored (tempTime0 : list ascii) (g : GpsData)
    (sentence status : list ascii) :
  no_empty_field 3 sentence = true ->
  field sentence 2 = Some status ->
  let g' := fst (parseRMC tempTime0 g sentence) in
  mode g' = char_at status 0
  /\ (char_at status 0 = "A"%char -> fixMode g' = Active)
  /\ (char_at status 0 = "V"%char -> fixMode g' = Void)
  /\ (char_at status 0 <> "A"%char -> char_at status 0 <> "V"%char ->
      fixMode g' = Unknown).
Proof.
  intros Hne Hf g'.
  assert (Hm : mode g' = char_at status 0).
  { subst g'. rewrite parseRMC_mode. unfold on_token.
    rewrite (token_is_field sentence 3) by (exact Hne || lia).
    rewrite Hf. reflexivity. }
  split; [exact Hm |]. unfold fixMode. rewrite Hm.
  repeat split.
  - intros ->. reflexivity.
  - intros ->. reflexivity.
  - intros HA HV. apply Ascii.eqb_neq in HA, HV. rewrite HA, HV. reflexivity.
Qed.

Lemma parseRMC_status_stored_witness :
  no_empty_field 3 sample_status_x = true
  /\ field sample_status_x 2 = Some (lit "X")
  /\ mode (fst (parseRMC (repeat NUL 7) (set_mode gps_zero "V") sample_status_x))
     = "X"%char.
Proof.
  split; [reflexivity |]. split; [reflexivity |].
  apply (parseRMC_status_stored (repeat NUL 7) (set_mode gps_zero "V")
           sample_status_x (lit "X")); reflexivity.
Defined.

(** C4, as stated, fails: an unrecognised status character does not leave
    the mode at its previous value. *)
Lemma parseRMC_status_x_overwrites_void :
  let g := set_mode gps_zero "V" in
  let g' := fst (parseRMC (repeat NUL 7) g sample_status_x) in
  field sample_status_x 2 = Some (lit "X")
  /\ fixMode g = Void
  /\ mode g' <> mode g /\ fixMode g' <> fixMode g.
Proof. vm_compute. repeat split; discriminate. Qed.

(** ** Speed *)

(** C5: the speed is never set to 0.0 by the decoder: it is the conversion
    of the token at index 7, or else left as it was. With the speed field
    empty the course over ground is converted in its place. *)
Theorem parseRMC_empty_speed_not_zeroed :
  (forall tempTime0 g sentence,
     speed (fst (parseRMC tempTime0 g sentence))
     = on_token (tokens (c_str sentence)) 7 F_knots_to_kmh (speed g))
  /\ field sample_no_speed 7 = Some []
  /\ (forall tempTime0 g,
        speed (fst (parseRMC tempTime0 g sample_no_speed))
        = F_knots_to_kmh (lit "084.4")).
Proof.
  split; [exact parseRMC_speed |]. split; [reflexivity |].
  intros. rewrite parseRMC_speed. reflexivity.
Qed.

(** ** dataReady and the outcome *)

(** C6, as amended: for a sentence with no empty field among indices 0..9,
    dataReady after the decode does not depend on its earlier value and is
    true exactly when field 9 is present with at least 6 characters; when
    it is false the local time is not written and the outcome is Malformed,
    or SignalLost when the mode is V. *)
Theorem parseRMC_dataReady_from_date (tempTime0 : list ascii) (g : GpsData)
    (sentence : list ascii) :
  no_empty_field 10 sentence = true ->
  let g' := fst (parseRMC tempTime0 g sentence) in
  let out := snd (parseRMC tempTime0 g sentence) in
  (dataReady g' = true <->
   exists d, field sentence 9 = Some d /\ (6 <= length d)%nat)
  /\ (dataReady g' = false ->
      time g' = time g
      /\ outcome_of out = if Ascii.eqb (mode g') "V" then SignalLost
                          else Malformed).
Proof.
  intros Hne g' out.
  assert (Hd : dataReady g'
               = match field sentence 9 with
                 | Some d => (6 <=? length d)%nat
                 | None => false
                 end).
  { subst g'. rewrite parseRMC_dataReady. unfold on_token.
    rewrite (token_is_field sentence 10) by (exact Hne || lia). reflexivity. }
  split.
  - rewrite Hd. destruct (field sentence 9) as [d |].
    + rewrite Nat.leb_le. split; [intros H; exists d; auto |].
      intros (d' & E & H). injection E as <-. exact H.
    + split; [discriminate | intros (d' & E & _); discriminate].
  - intros Hf. subst g' out. rewrite parseRMC_traversed in *.
    set (st := traversed (tokens (c_str sentence)) tempTime0 g) in *.
    assert (Hs : dataReady (snd st) = false).
    { destruct (report_members st) as (_ & _ & _ & _ & _ & _ & _ & <-).
      exact Hf. }
    rewrite (report_not_ready st Hs). cbn [fst snd]. split; [reflexivity |].
    destruct (Ascii.eqb (mode (snd st)) "V"); reflexivity.
Qed.

Lemma parseRMC_dataReady_from_date_witness :
  no_empty_field 10 sample_void_short_date = true
  /\ (dataReady (fst (parseRMC (repeat NUL 7) gps_zero sample_void_short_date))
      = true <->
      exists d, field sample_void_short_date 9 = Some d /\ (6 <= length d)%nat).
Proof.
  split; [reflexivity |].
  apply (parseRMC_dataReady_from_date (repeat NUL 7) gps_zero
           sample_void_short_date); reflexivity.
Defined.

(** C6, as stated, fails: a date of four characters with status V gives
    SignalLost, not Malformed. *)
Lemma parseRMC_short_date_void_not_malformed :
  let r := parseRMC (repeat NUL 7) gps_zero sample_void_short_date in
  field sample_void_short_date 9 = Some (lit "2303")
  /\ dataReady (fst r) = false
  /\ outcome_of (snd r) <> Malformed.
Proof. vm_compute. repeat split; discriminate. Qed.

(** With the date field empty the field after it is taken as the date:
    this is why the statement above asks for fields 0..9 not to be empty. *)
Example parseRMC_empty_date_takes_next :
  let g' := fst (parseRMC (repeat NUL 7) gps_zero sample_empty_date) in
  field sample_empty_date 9 = Some []
  /\ dataReady g' = true /\ c_str (date g') = lit "003.12".
Proof. vm_compute. repeat split. Qed.

(** When the token the decoder takes at index 2 begins with V (this is the
    status field when no field before it is empty), the mode is Void, the
    outcome is SignalLost whatever the other tokens and dataReady are, and
    the local time is not written. *)
Lemma parseRMC_void_signal_lost (tempTime0 : list ascii) (g : GpsData)
    (sentence status : list ascii) :
  nth_error (tokens (c_str sentence)) 2 = Some status ->
  char_at status 0 = "V"%char ->
  let g' := fst (parseRMC tempTime0 g sentence) in
  let out := snd (parseRMC tempTime0 g sentence) in
  fixMode g' = Void /\ out = [SignalLostLine] /\ outcome_of out = SignalLost
  /\ outcome_of out <> Updated /\ time g' = time g
  /\ (is_rmc sentence = true ->
      snd (decode tempTime0 g sentence) = SignalLost).
Proof.
  intros Ht HV g' out.
  assert (Hm : mode g' = "V"%char).
  { subst g'. rewrite parseRMC_mode. unfold on_token. rewrite Ht. exact HV. }
  assert (Hr : parseRMC tempTime0 g sentence
               = (snd (traversed (tokens (c_str sentence)) tempTime0 g),
                  [SignalLostLine])).
  { rewrite parseRMC_traversed. apply report_void.
    subst g'. rewrite parseRMC_traversed in Hm.
    destruct (report_members (traversed (tokens (c_str sentence)) tempTime0 g))
      as (_ & _ & _ & _ & _ & _ & <- & _). exact Hm. }
  split; [unfold fixMode; rewrite Hm; reflexivity |].
  subst g' out. unfold decode. rewrite Hr. cbn [fst snd].
  repeat split; try discriminate.
  intros ->. reflexivity.
Qed.

(** C7: a status field V does not always give SignalLost. In the sentence
    of a receiver without a fix the time field is empty and field 2 is V;
    the decoder steps over the empty field, takes the mode from the last
    field, prints nothing, and the outcome is Malformed, for every earlier
    record and every stack contents. *)
Theorem parseRMC_void_status_not_reported (tempTime0 : list ascii)
    (g : GpsData) :
  is_rmc sample_void = true
  /\ field sample_void 2 = Some (lit "V")
  /\ mode (fst (parseRMC tempTime0 g sample_void)) = "N"%char
  /\ fixMode (fst (parseRMC tempTime0 g sample_void)) <> Void
  /\ snd (parseRMC tempTime0 g sample_void) = []
  /\ snd (decode tempTime0 g sample_void) = Malformed
  /\ snd (decode tempTime0 g sample_void) <> SignalLost.
Proof.
  assert (E : parseRMC tempTime0 g sample_void
              = (set_mode (set_dataReady g false) "N", [])).
  { rewrite parseRMC_traversed. reflexivity. }
  unfold decode. change (is_rmc sample_void) with true. cbv iota.
  rewrite E. cbn [fst snd]. repeat split; discriminate.
Qed.

(** ** The uninitialised time buffer *)

(** C9: there is a sentence the decoder accepts (time field shorter than 6
    characters, status A, date of 6 characters) for which the local time
    written to the record is the conversion of whatever the stack held in
    [tempTime]: two stack contents give two different local times. *)
Theorem parseRMC_uninitialised_tempTime :
  exists sentence t d,
    is_rmc sentence = true
    /\ field sentence 1 = Some t /\ (length t < 6)%nat
    /\ field sentence 2 = Some (lit "A")
    /\ field sentence 9 = Some d /\ (6 <= length d)%nat
    /\ (forall tempTime0 g,
          time (fst (parseRMC tempTime0 g sentence))
          = sprintf_into (time g) (adjustTimeZone tempTime0)
          /\ snd (decode tempTime0 g sentence) = Updated)
    /\ (exists stack1 stack2,
          time (fst (parseRMC stack1 gps_zero sentence))
          <> time (fst (parseRMC stack2 gps_zero sentence))).
Proof.
  exists sample_short_time, (lit "12"), (lit "230394").
  repeat (split; [reflexivity || (cbn; lia) |]).
  split.
  - intros tempTime0 g. unfold decode.
    change (is_rmc sample_short_time) with true. cbv iota.
    rewrite parseRMC_traversed.
    destruct (report_updated
                (traversed (tokens (c_str sample_short_time)) tempTime0 g))
      as [Ht Ho]; [reflexivity | reflexivity |].
    rewrite Ht. split; [reflexivity |].
    destruct (report _). exact Ho.
  - exists (repeat NUL 7), (lit "235959" ++ [NUL]). vm_compute. discriminate.
Qed.

(** ** The sentence assembler *)

Lemma store_length a : forall i c, length (store a i c) = length a.
Proof.
  induction a as [| x r IH]; intros [| i] c; cbn [store length]; auto.
Qed.

Lemma firstn_store a : forall i c, firstn i (store a i c) = firstn i a.
Proof.
  induction a as [| x r IH]; intros [| i] c; cbn [store firstn]; auto.
  f_equal. apply IH.
Qed.

Lemma firstn_S_store a : forall i c,
  (i < length a)%nat -> firstn (S i) (store a i c) = firstn i a ++ [c].
Proof.
  induction a as [| x r IH]; intros [| i] c H; cbn [length] in H; try lia.
  - reflexivity.
  - cbn [store]. rewrite !firstn_cons. cbn [app]. f_equal. apply IH. lia.
Qed.

Lemma store_split a : forall i c,
  (i < length a)%nat -> store a i c = firstn i a ++ c :: skipn (S i) a.
Proof.
  induction a as [| x r IH]; intros [| i] c H; cbn [length] in H; try lia.
  - reflexivity.
  - cbn [store firstn skipn app]. f_equal. apply IH. lia.
Qed.

Lemma strtok_effect_length b : forall in_token,
  length (strtok_effect in_token b) = length b.
Proof.
  induction b as [| c r IH]; intros in_token; [reflexivity |].
  cbn [strtok_effect]. destruct (is_nul c); [reflexivity |].
  destruct (is_comma c); cbn [length]; rewrite IH; reflexivity.
Qed.

Lemma consumer_writes_length b : length (consumer_writes b) = length b.
Proof.
  unfold consumer_writes. destruct (is_rmc b); [| reflexivity].
  apply strtok_effect_length.
Qed.

Lemma c_str_app_nul l tail : c_str (l ++ NUL :: tail) = c_str l.
Proof.
  induction l as [| c r IH]; [reflexivity |].
  cbn [app c_str]. destruct (is_nul c); [reflexivity |]. f_equal. exact IH.
Qed.

Lemma is_term_not_dollar c : is_term c = true -> is_dollar c = false.
Proof.
  unfold is_term, is_dollar. intros H. apply orb_true_iff in H.
  destruct H as [H | H]; apply Ascii.eqb_eq in H; subst c; reflexivity.
Qed.

Lemma asm_holds_init : asm_holds asm_init [].
Proof. repeat split. Qed.

(** One byte keeps the invariant, with the pending bytes moved on. *)
Lemma feed_holds c a acc :
  asm_holds a acc ->
  asm_holds (fst (feed c a))
            (if is_dollar c || is_term c then [] else acc ++ [c]).
Proof.
  intros (Hlen & Hidx & Hbuf). unfold feed.
  destruct (is_dollar c); cbn [orb].
  { repeat split; cbn; auto. }
  destruct (is_term c); cbv iota.
  { destruct (0 <? bufferIndex a)%nat; cbn [fst]; repeat split; cbn; auto.
    rewrite consumer_writes_length, store_length. exact Hlen. }
  pose proof (length_firstn (BUFFER_SIZE - 1) acc) as Lf.
  destruct (bufferIndex a <? BUFFER_SIZE - 1)%nat eqn:E; cbn [fst].
  - apply Nat.ltb_lt in E.
    assert (La : (length acc < BUFFER_SIZE - 1)%nat) by lia.
    assert (Ha : firstn (BUFFER_SIZE - 1) acc = acc)
      by (apply firstn_all2; lia).
    assert (Hc : firstn (BUFFER_SIZE - 1) (acc ++ [c]) = acc ++ [c])
      by (apply firstn_all2; rewrite length_app; cbn [length]; lia).
    unfold asm_holds. rewrite Hc. rewrite Ha in Hidx, Hbuf.
    repeat split; cbn [buffer bufferIndex].
    + rewrite store_length. exact Hlen.
    + rewrite length_app. cbn [length]. lia.
    + rewrite firstn_S_store by (unfold BUFFER_SIZE in *; lia).
      rewrite Hbuf. reflexivity.
  - apply Nat.ltb_ge in E.
    assert (La : (BUFFER_SIZE - 1 <= length acc)%nat) by lia.
    assert (Hc : firstn (BUFFER_SIZE - 1) (acc ++ [c])
                 = firstn (BUFFER_SIZE - 1) acc).
    { rewrite firstn_app.
      replace (BUFFER_SIZE - 1 - length acc)%nat with 0%nat by lia.
      cbn [firstn]. apply app_nil_r. }
    unfold asm_holds. rewrite Hc. repeat split; assumption.
Qed.

Lemma feed_all_holds bs : forall a acc,
  asm_holds a acc -> asm_holds (feed_all bs a) (pending_from acc bs).
Proof.
  induction bs as [| c r IH]; intros a acc H; [exact H |].
  cbn [feed_all pending_from]. pose proof (feed_holds c a acc H) as H'.
  destruct (is_dollar c || is_term c); apply IH, H'.
Qed.

Lemma after_dollar_from_pending bs : forall oacc acc body,
  (forall b, oacc = Some b -> acc = b) ->
  after_dollar_from oacc bs = Some body -> pending_from acc bs = body.
Proof.
  induction bs as [| c r IH]; intros oacc acc body Hacc H.
  - apply Hacc, H.
  - cbn [after_dollar_from pending_from] in *.
    destruct (is_dollar c); cbn [orb].
    + apply (IH (Some [])); [intros b E; injection E as <-; reflexivity | exact H].
    + destruct (is_term c).
      * apply (IH None); [discriminate | exact H].
      * apply (IH (option_map (fun b => b ++ [c]) oacc)); [| exact H].
        intros b E. destruct oacc as [b0 |]; [| discriminate].
        injection E as <-. rewrite (Hacc b0 eq_refl). reflexivity.
Qed.

(** C2, as amended: a sentence is emitted exactly when a terminator byte
    arrives while at least one byte is pending, that is, received since the
    most recent [$] or terminator or since start-up (no [$] is needed). The
    terminated buffer then holds exactly the pending bytes, cut at 127, then
    a NUL; it is never of length zero. When a [$] opened the pending bytes,
    they are the bytes after that [$]. *)
Theorem assembler_emits (pre : list ascii) (c : ascii) :
  let content := firstn (BUFFER_SIZE - 1) (pending pre) in
  match emitted pre c with
  | Some b =>
      is_term c = true /\ pending pre <> [] /\ content <> []
      /\ length b = BUFFER_SIZE
      /\ (exists tail, b = content ++ NUL :: tail)
      /\ c_str b = c_str content
  | None => is_term c = false \/ pending pre = []
  end
  /\ (forall body, after_dollar pre = Some body -> pending pre = body).
Proof.
  intros content. split.
  2: { intros body H. apply (after_dollar_from_pending pre None); [discriminate | exact H]. }
  destruct (feed_all_holds pre asm_init [] asm_holds_init) as (Hlen & Hidx & Hbuf).
  fold (pending pre) in Hidx, Hbuf. fold content in Hidx, Hbuf.
  unfold emitted, feed. set (a := feed_all pre asm_init) in *.
  destruct (is_term c) eqn:Et.
  - rewrite (is_term_not_dollar c Et).
    destruct (0 <? bufferIndex a)%nat eqn:E0; cbn [snd].
    + apply Nat.ltb_lt in E0.
      assert (Hc : content <> []) by (intros Hz; rewrite Hz in Hidx; cbn in Hidx; lia).
      assert (Hp : pending pre <> []).
      { intros Hz. apply Hc. subst content. rewrite Hz. apply firstn_nil. }
      assert (Hi : (bufferIndex a < length (buffer a))%nat).
      { rewrite Hidx, Hlen. subst content. rewrite length_firstn.
        unfold BUFFER_SIZE. lia. }
      assert (Hb : store (buffer a) (bufferIndex a) NUL
                   = content ++ NUL :: skipn (S (bufferIndex a)) (buffer a)).
      { rewrite store_split by exact Hi. rewrite Hbuf. reflexivity. }
      repeat split; auto.
      * rewrite store_length. exact Hlen.
      * eexists. exact Hb.
      * rewrite Hb. apply c_str_app_nul.
    + right. apply Nat.ltb_ge in E0.
      assert (Hz : length content = 0%nat) by lia.
      subst content. destruct (pending pre); [reflexivity | discriminate].
  - destruct (is_dollar c); [left; reflexivity |].
    destruct (bufferIndex a <? BUFFER_SIZE - 1)%nat; left; reflexivity.
Qed.

(** C2, as stated, fails: bytes that no [$] precedes are emitted as a
    sentence when a terminator follows them. *)
Lemma assembler_emits_without_dollar :
  ~ (forall pre c,
       emitted pre c <> None <->
       (is_term c = true
        /\ exists body, after_dollar pre = Some body /\ body <> [])).
Proof.
  intros H. destruct (H (lit "abc") "010"%char) as [H1 _].
  destruct H1 as (_ & body & E & _); [vm_compute; discriminate |].
  vm_compute in E. discriminate.
Qed.

Example emitted_abc :
  option_map c_str (emitted (lit "abc") "010"%char) = Some (lit "abc").
Proof. reflexivity. Qed.

(** A NUL byte of the stream is buffered like any other byte; a reader of
    the buffer as a C string stops at it. *)
Example emitted_nul_first :
  option_map (firstn 3) (emitted [NUL; "a"%char] "010"%char)
  = Some [NUL; "a"%char; NUL]
  /\ option_map c_str (emitted [NUL; "a"%char] "010"%char) = Some [].
Proof. split; reflexivity. Qed.

(** ** The log scheduler *)

(** The wrapped difference of two clock readings is the time elapsed
    between them, as long as that is less than 2^32 ms. *)
Lemma sub32_millis t0 t :
  0 <= t - t0 < 2 ^ 32 -> sub32 (millis t) (millis t0) = t - t0.
Proof.
  intros H. unfold sub32, millis, wrap32.
  rewrite <- Zminus_mod. apply Z.mod_small, H.
Qed.

Lemma tick_fires_late t0 t g opened :
  t0 <= t ->
  snd (tick (millis t) (millis t0) g opened) <> None ->
  t0 + LOG_INTERVAL_MS <= t.
Proof.
  intros Hle Hf. unfold tick in Hf.
  destruct (LOG_INTERVAL_MS <=? sub32 (millis t) (millis t0)) eqn:E;
    [| contradiction Hf; reflexivity].
  apply Z.leb_le in E. unfold LOG_INTERVAL_MS in *.
  destruct (Z_lt_ge_dec (t - t0) 5000) as [Hs | Hs]; [| lia].
  rewrite sub32_millis in E by lia. lia.
Qed.

Lemma fire_times_spaced calls : forall t0,
  Forall (fun c => t0 <= call_time c) calls ->
  StronglySorted Z.le (map call_time calls) ->
  Forall (spaced t0) (fire_times (millis t0) calls)
  /\ StronglySorted spaced (fire_times (millis t0) calls).
Proof.
  induction calls as [| [[t g] opened] r IH]; intros t0 Hall Hs.
  - split; constructor.
  - cbn [map call_time fst] in Hs.
    apply StronglySorted_inv in Hs as [Hs Hr].
    apply Forall_cons_iff in Hall as [Ht Hall]. cbn [call_time fst] in Ht.
    cbn [fire_times].
    pose proof (tick_fires_late t0 t g opened Ht) as Hlate.
    unfold tick in *.
    destruct (LOG_INTERVAL_MS <=? sub32 (millis t) (millis t0)).
    + cbn [snd] in Hlate. specialize (Hlate ltac:(discriminate)).
      destruct (IH t) as [F S]; [| exact Hs |].
      { rewrite Forall_map in Hr. exact Hr. }
      split; constructor; auto.
      eapply Forall_impl; [| exact F]. unfold spaced, LOG_INTERVAL_MS in *.
      intros; lia.
    + apply IH; assumption.
Qed.

(** C8: a tick fires exactly when the wrapped difference between the clock
    and the last fire is at least 5000 ms, and then sets the last fire to
    the clock reading; along calls at non-decreasing times, every fire is
    at least 5000 ms after the previous fire (and after the time [t0] the
    last-fire stamp stands for), however often the calls come. *)
Theorem scheduler_fires_once_per_interval (t0 : Z) (calls : list Call) :
  StronglySorted Z.le (t0 :: map call_time calls) ->
  StronglySorted spaced (t0 :: fire_times (millis t0) calls)
  /\ (forall now last g opened,
        (snd (tick now last g opened) <> None
         <-> LOG_INTERVAL_MS <= sub32 now last)
        /\ fst (tick now last g opened)
           = if LOG_INTERVAL_MS <=? sub32 now last then now else last).
Proof.
  intros Hs. apply StronglySorted_inv in Hs as [Hs H0]. split.
  - destruct (fire_times_spaced calls t0) as [F S]; [| exact Hs |].
    { rewrite Forall_map in H0. exact H0. }
    constructor; assumption.
  - intros now last g opened. unfold tick.
    destruct (LOG_INTERVAL_MS <=? sub32 now last) eqn:E; cbn [fst snd].
    + apply Z.leb_le in E. repeat split; auto. discriminate.
    + apply Z.leb_gt in E. repeat split; auto; [intros H; contradiction H; reflexivity | lia].
Qed.

Lemma scheduler_fires_once_per_interval_witness :
  StronglySorted Z.le (0 :: map call_time (calls_at [1200; 5000; 5001; 9999; 10000]))
  /\ StronglySorted spaced
       (0 :: fire_times (millis 0) (calls_at [1200; 5000; 5001; 9999; 10000])).
Proof.
  assert (H : StronglySorted Z.le
                (0 :: map call_time (calls_at [1200; 5000; 5001; 9999; 10000]))).
  { cbn. repeat constructor; lia. }
  split; [exact H |].
  apply (scheduler_fires_once_per_interval 0 _ H).
Defined.

(** ** The strings of the record *)

Lemma c_str_length_le l : (length (c_str l) <= length l)%nat.
Proof.
  induction l as [| c r IH]; [apply Nat.le_refl |].
  cbn [c_str]. destruct (is_nul c); cbn [length]; lia.
Qed.

(** A bounded copy followed by the terminator: the array keeps its size and
    holds a string of at most [n] characters. *)
Lemma copy_terminated dst src n :
  length dst = S n ->
  length (store (strncpy dst src n) n NUL) = S n
  /\ (strlen (store (strncpy dst src n) n NUL) <= n)%nat
  /\ firstn n (store (strncpy dst src n) n NUL)
     = firstn n (c_str src ++ repeat NUL n).
Proof.
  intros Hd.
  assert (Hf : length (firstn n (c_str src ++ repeat NUL n)) = n).
  { rewrite length_firstn, length_app, repeat_length. lia. }
  assert (Hl : length (strncpy dst src n) = S n).
  { unfold strncpy. rewrite length_app, Hf, length_skipn. lia. }
  assert (Hp : firstn n (strncpy dst src n)
               = firstn n (c_str src ++ repeat NUL n)).
  { unfold strncpy. rewrite firstn_app, Hf, Nat.sub_diag. cbn [firstn].
    rewrite app_nil_r. apply firstn_all2. lia. }
  split; [rewrite store_length; exact Hl |]. split.
  - unfold strlen. rewrite store_split by lia. rewrite Hp, c_str_app_nul.
    etransitivity; [apply c_str_length_le | lia].
  - rewrite firstn_store. exact Hp.
Qed.

Lemma sprintf_into_six dst out :
  length dst = 7%nat -> length out = 6%nat ->
  length (sprintf_into dst out) = 7%nat
  /\ (strlen (sprintf_into dst out) <= 6)%nat.
Proof.
  intros Hd Ho. unfold sprintf_into, strlen. split.
  - rewrite length_app. cbn [length]. rewrite length_skipn. lia.
  - rewrite c_str_app_nul. etransitivity; [apply c_str_length_le | lia].
Qed.

Lemma is_digit_value c :
  is_digit c = true -> 0 <= char_val c - char_val "0" <= 9.
Proof.
  unfold is_digit. intros H. apply andb_true_iff in H as [H1 H2].
  apply Z.leb_le in H1, H2. change (char_val "9") with 57 in H2.
  change (char_val "0") with 48 in *. lia.
Qed.

(** Six digits convert to six characters. *)
Lemma adjustTimeZone_digits_length utc :
  forallb is_digit (firstn 6 utc) = true -> (6 <= length utc)%nat ->
  length (adjustTimeZone utc) = 6%nat.
Proof.
  intros Hd Hl.
  do 6 (destruct utc as [| ? utc]; [cbn [length] in Hl; lia |]).
  cbn [firstn forallb] in Hd.
  repeat (apply andb_true_iff in Hd as [?%is_digit_value Hd]).
  unfold adjustTimeZone, adjusted, digit_at, char_at. cbn [nth].
  unfold TZ_HOURS, TZ_MINUTES.
  set (h := _ * 10 + _). set (m := _ * 10 + _). set (s := _ * 10 + _).
  assert (0 <= h < 100 /\ 0 <= m < 100 /\ 0 <= s < 100) as (Hh & Hm & Hs)
    by (subst h m s; lia).
  assert (Hq : 0 <= Z.quot (m + 30) 60)
    by (rewrite Z.quot_div_nonneg by lia; apply Z.div_pos; lia).
  assert (Hm' : 0 <= Z.rem (m + 30) 60 < 60) by (apply Z.rem_bound_pos; lia).
  assert (Hh' : 0 <= Z.rem (h + (5 + Z.quot (m + 30) 60)) 24 < 24)
    by (apply Z.rem_bound_pos; lia).
  rewrite !fmt_02d_two_digits by lia.
  reflexivity.
Qed.

Lemma fix_strings_ok_zero : fix_strings_ok gps_zero.
Proof. unfold fix_strings_ok. cbn. repeat split; lia. Qed.

(** The bound is kept by a decode whose time token has six leading digits,
    whatever the stack held. *)
Lemma parseRMC_keeps_strings tempTime0 g sentence :
  fix_strings_ok g -> time_token_ok sentence = true ->
  fix_strings_ok (fst (parseRMC tempTime0 g sentence)).
Proof.
  intros ((Hd1 & Hd2) & (Ht1 & Ht2) & (Ha1 & Ha2) & (Ho1 & Ho2)) Htok.
  rewrite parseRMC_traversed.
  set (st := traversed (tokens (c_str sentence)) tempTime0 g).
  assert (Hdate : length (date (snd st)) = 7%nat /\ (strlen (date (snd st)) <= 6)%nat).
  { subst st. unfold traversed, on_token. cbn [snd date].
    destruct (nth_error _ 9); [| auto]. destruct (6 <=? strlen l)%nat; [| auto].
    destruct (copy_terminated (date g) l 6 Hd1) as (? & ? & _). auto. }
  assert (Hlat : length (lat (snd st)) = 11%nat /\ (strlen (lat (snd st)) <= 10)%nat).
  { subst st. unfold traversed, on_token. cbn [snd lat].
    destruct (nth_error _ 3); [| auto]. destruct (0 <? strlen l)%nat; [| auto].
    destruct (copy_terminated (lat g) l 10 Ha1) as (? & ? & _). auto. }
  assert (Hlon : length (lon (snd st)) = 11%nat /\ (strlen (lon (snd st)) <= 10)%nat).
  { subst st. unfold traversed, on_token. cbn [snd lon].
    destruct (nth_error _ 5); [| auto]. destruct (0 <? strlen l)%nat; [| auto].
    destruct (copy_terminated (lon g) l 10 Ho1) as (? & ? & _). auto. }
  assert (Htime : time (snd st) = time g) by reflexivity.
  assert (Htt : length (adjustTimeZone (fst st)) = 6%nat).
  { subst st. unfold traversed. cbn [fst].
    unfold time_token_ok in Htok. unfold on_token in *.
    destruct (nth_error _ 1) as [t |] eqn:E; [| discriminate].
    destruct (token_strlen _ _ _ E) as [Hs _].
    apply andb_true_iff in Htok as [H6 Hdig]. rewrite Hs, H6.
    apply Nat.leb_le in H6.
    assert (Hc : c_str t = t).
    { apply nth_error_In, filter_In in E as [Hin _].
      apply nul_free_c_str.
      pose proof (fields_nul_free _ (c_str_nul_free sentence)) as F.
      rewrite Forall_forall in F. apply F, Hin. }
    assert (Hf : firstn 6 (store (strncpy tempTime0 t 6) 6 NUL) = firstn 6 t).
    { rewrite firstn_store. unfold strncpy.
      assert (L : length (firstn 6 (c_str t ++ repeat NUL 6)) = 6%nat).
      { rewrite length_firstn, length_app, repeat_length. lia. }
      rewrite firstn_app, L, Nat.sub_diag, firstn_O, app_nil_r.
      rewrite firstn_firstn, Nat.min_id, Hc.
      rewrite firstn_app. replace (6 - length t)%nat with 0%nat by lia.
      cbn [firstn]. apply app_nil_r. }
    apply adjustTimeZone_digits_length.
    - rewrite Hf. exact Hdig.
    - rewrite <- (firstn_skipn 6 (store _ _ _)), Hf, length_app, length_firstn. lia. }
  destruct st as [tt g1]. cbn [fst snd] in *. unfold report.
  destruct (dataReady g1 && Ascii.eqb (mode g1) "A").
  - cbn [fst]. unfold fix_strings_ok. cbn [date time lat lon set_time].
    repeat split; try tauto; rewrite Htime;
      apply (sprintf_into_six (time g) _ Ht1 Htt).
  - destruct (Ascii.eqb (mode g1) "V"); cbn [fst]; unfold fix_strings_ok;
      rewrite Htime; tauto.
Qed.

(** C10: with a time field of two digits the conversion reads the stack
    bytes under [tempTime]; if they are zero, nine characters and a NUL are
    written into the seven-character array [time]. *)
Theorem parseRMC_short_time_overruns :
  let g' := fst (parseRMC (repeat NUL 7) gps_zero sample_short_time) in
  fix_strings_ok gps_zero
  /\ field sample_short_time 1 = Some (lit "12")
  /\ forallb is_digit (lit "12") = true
  /\ c_str (time g') = lit "-3-18-528"
  /\ (strlen (time g') = 9)%nat
  /\ ~ fix_strings_ok g'.
Proof.
  split; [exact fix_strings_ok_zero |].
  repeat (split; [reflexivity |]).
  intros (_ & (H & _) & _). vm_compute in H. discriminate.
Qed.

(** ** More on the conversion *)

Lemma is_digit_digit_char d : 0 <= d <= 9 -> is_digit (digit_char d) = true.
Proof.
  intros Hd.
  assert (H : d = 0 \/ d = 1 \/ d = 2 \/ d = 3 \/ d = 4 \/ d = 5 \/ d = 6
              \/ d = 7 \/ d = 8 \/ d = 9) by lia.
  repeat (destruct H as [-> | H]; [reflexivity |]). subst d. reflexivity.
Qed.

Lemma two_digits_are_digits n :
  0 <= n < 100 -> forallb is_digit (two_digits n) = true.
Proof.
  intros Hn. unfold two_digits. cbn [forallb].
  rewrite !is_digit_digit_char; [reflexivity | |].
  - pose proof (Z.mod_pos_bound n 10). lia.
  - split; [apply Z.div_pos; lia | apply Z.lt_succ_r, Z.div_lt_upper_bound; lia].
Qed.

Lemma two_digits_inj a b :
  0 <= a < 100 -> 0 <= b < 100 -> two_digits a = two_digits b -> a = b.
Proof.
  intros Ha Hb E.
  pose proof (two_digits_value a [] Ha) as Va.
  pose proof (two_digits_value b [] Hb) as Vb.
  rewrite E in Va. congruence.
Qed.

Lemma app_inj_length {A} (l1 l2 r1 r2 : list A) :
  length l1 = length l2 -> l1 ++ r1 = l2 ++ r2 -> l1 = l2 /\ r1 = r2.
Proof.
  revert l2. induction l1 as [| x l1 IH]; intros [| y l2] Hl E;
    try discriminate.
  - split; [reflexivity | exact E].
  - cbn [app] in E. injection E as -> E. injection Hl as Hl.
    destruct (IH l2 Hl E) as [-> ->]. split; reflexivity.
Qed.

(** The numbers [adjustTimeZone] formats when its six characters are
    digits: all within two digits, hours and minutes normalised. *)
Lemma adjusted_digits utc :
  (6 <= length utc)%nat -> forallb is_digit (firstn 6 utc) = true ->
  exists h m s,
    adjusted utc = (h, m, s)
    /\ 0 <= h <= 23 /\ 0 <= m <= 59 /\ 0 <= s <= 99
    /\ two_digits s = firstn 2 (skipn 4 utc).
Proof.
  intros Hl Hd.
  do 6 (destruct utc as [| ? utc]; [cbn [length] in Hl; lia |]).
  cbn [firstn forallb] in Hd.
  apply andb_true_iff in Hd as [D0 Hd]. apply andb_true_iff in Hd as [D1 Hd].
  apply andb_true_iff in Hd as [D2 Hd]. apply andb_true_iff in Hd as [D3 Hd].
  apply andb_true_iff in Hd as [D4 Hd]. apply andb_true_iff in Hd as [D5 _].
  destruct (two_digits_of_chars _ _ D4 D5) as [Hs Es].
  apply is_digit_value in D0, D1, D2, D3.
  unfold adjusted, digit_at, char_at. cbn [nth]. unfold TZ_HOURS, TZ_MINUTES.
  set (h := _ * 10 + _). set (m := _ * 10 + _).
  assert (0 <= h < 100 /\ 0 <= m < 100) as (Hh & Hm) by (subst h m; lia).
  assert (Hq : 0 <= Z.quot (m + 30) 60)
    by (rewrite Z.quot_div_nonneg by lia; apply Z.div_pos; lia).
  assert (Hm' : 0 <= Z.rem (m + 30) 60 < 60) by (apply Z.rem_bound_pos; lia).
  assert (Hh' : 0 <= Z.rem (h + (5 + Z.quot (m + 30) 60)) 24 < 24)
    by (apply Z.rem_bound_pos; lia).
  eexists _, _, _. split; [reflexivity |].
  split; [lia |]. split; [lia |]. split; [lia |]. exact Es.
Qed.

(** X1: whatever six decimal digits the time field begins with (99 hours
    or 99 minutes included), the conversion writes exactly six decimal
    digits, hours below 24 and minutes below 60; the two seconds digits are
    copied unchanged. *)
Theorem adjustTimeZone_normalises (utc : list ascii) :
  (6 <= length utc)%nat -> forallb is_digit (firstn 6 utc) = true ->
  exists h m,
    0 <= h <= 23 /\ 0 <= m <= 59
    /\ adjustTimeZone utc = two_digits h ++ two_digits m ++ firstn 2 (skipn 4 utc)
    /\ length (adjustTimeZone utc) = 6%nat
    /\ forallb is_digit (adjustTimeZone utc) = true.
Proof.
  intros Hl Hd.
  destruct (adjusted_digits utc Hl Hd) as (h & m & s & E & Hh & Hm & Hs & Es).
  assert (Ea : adjustTimeZone utc = two_digits h ++ two_digits m ++ two_digits s).
  { unfold adjustTimeZone. rewrite E. rewrite !fmt_02d_two_digits by lia.
    reflexivity. }
  exists h, m. split; [exact Hh |]. split; [exact Hm |].
  split; [rewrite Ea, Es; reflexivity |]. rewrite Ea.
  split; [reflexivity |].
  rewrite !forallb_app, !two_digits_are_digits by lia. reflexivity.
Qed.

Lemma adjustTimeZone_normalises_witness :
  ((6 <= length (lit "999999.00"))%nat
   /\ forallb is_digit (firstn 6 (lit "999999.00")) = true)
  /\ exists h m,
       0 <= h <= 23 /\ 0 <= m <= 59
       /\ adjustTimeZone (lit "999999.00")
          = two_digits h ++ two_digits m ++ firstn 2 (skipn 4 (lit "999999.00"))
       /\ length (adjustTimeZone (lit "999999.00")) = 6%nat
       /\ forallb is_digit (adjustTimeZone (lit "999999.00")) = true.
Proof.
  split; [split; [cbn; lia | reflexivity] |].
  apply (adjustTimeZone_normalises (lit "999999.00")); [cbn; lia | reflexivity].
Defined.

(** X2: on times of day the conversion loses nothing: two different UTC
    times never give the same local time. *)
Theorem adjustTimeZone_injective (h m s h2 m2 s2 : Z) :
  0 <= h <= 23 -> 0 <= m <= 59 -> 0 <= s <= 59 ->
  0 <= h2 <= 23 -> 0 <= m2 <= 59 -> 0 <= s2 <= 59 ->
  adjustTimeZone (hhmmss h m s) = adjustTimeZone (hhmmss h2 m2 s2) ->
  h = h2 /\ m = m2 /\ s = s2.
Proof.
  intros Hh Hm Hs Hh2 Hm2 Hs2 E. unfold adjustTimeZone in E.
  rewrite !adjusted_hhmmss in E by lia. unfold TZ_HOURS, TZ_MINUTES in E.
  assert (B1 : 0 <= (h + (5 + (m + 30) / 60)) mod 24 < 24)
    by (apply Z.mod_pos_bound; lia).
  assert (B2 : 0 <= (h2 + (5 + (m2 + 30) / 60)) mod 24 < 24)
    by (apply Z.mod_pos_bound; lia).
  assert (B3 : 0 <= (m + 30) mod 60 < 60) by (apply Z.mod_pos_bound; lia).
  assert (B4 : 0 <= (m2 + 30) mod 60 < 60) by (apply Z.mod_pos_bound; lia).
  rewrite !fmt_02d_two_digits in E by lia.
  apply app_inj_length in E as [Eh E]; [| reflexivity].
  apply app_inj_length in E as [Em Es]; [| reflexivity].
  apply two_digits_inj in Eh, Em, Es; try lia.
  clear B1 B2 B3 B4.
  assert (m = m2) by (Z.div_mod_to_equations; lia). subst m2.
  split; [| split; [reflexivity | exact Es]].
  Z.div_mod_to_equations. lia.
Qed.

Lemma adjustTimeZone_injective_witness :
  (0 <= 23 <= 23 /\ 0 <= 45 <= 59 /\ 0 <= 59 <= 59)
  /\ (adjustTimeZone (hhmmss 23 45 59) = adjustTimeZone (hhmmss 23 45 59) ->
      23 = 23 /\ 45 = 45 /\ 59 = 59).
Proof.
  split; [lia |].
  apply (adjustTimeZone_injective 23 45 59 23 45 59); lia.
Defined.

(** ** More on the decoder *)

Lemma c_str_idem a : c_str (c_str a) = c_str a.
Proof. apply nul_free_c_str, c_str_nul_free. Qed.

Lemma nul_free_app a b : nul_free (a ++ b) = nul_free a && nul_free b.
Proof. apply forallb_app. Qed.

Lemma nul_free_firstn n : forall l, nul_free l = true -> nul_free (firstn n l) = true.
Proof.
  induction n as [| n IH]; intros [| c l] H; try reflexivity.
  cbn [nul_free forallb firstn] in *. apply andb_true_iff in H as [Hc Hl].
  rewrite Hc. apply IH, Hl.
Qed.

Lemma c_str_app_repeat_nul t k : nul_free t = true -> c_str (t ++ repeat NUL k) = t.
Proof.
  intros Ht. destruct k as [| k].
  - cbn [repeat]. rewrite app_nil_r. apply nul_free_c_str, Ht.
  - cbn [repeat]. rewrite c_str_app_nul. apply nul_free_c_str, Ht.
Qed.

Lemma firstn_repeat_nul k : forall n,
  firstn k (repeat NUL n) = repeat NUL (Nat.min k n).
Proof.
  induction k as [| k IH]; intros [| n]; try reflexivity.
  cbn [repeat firstn Nat.min]. f_equal. apply IH.
Qed.

Lemma store_app_here (p r : list ascii) c :
  store (p ++ r) (length p) c
  = p ++ match r with [] => [] | _ :: r' => c :: r' end.
Proof.
  induction p as [| x p IH]; cbn [app length store].
  - destruct r; reflexivity.
  - f_equal. exact IH.
Qed.

Lemma strncpy_prefix_length src n :
  length (firstn n (c_str src ++ repeat NUL n)) = n.
Proof. rewrite length_firstn, length_app, repeat_length. lia. Qed.

(** A bounded copy and its terminator, as a list. *)
Lemma store_strncpy dst src n :
  store (strncpy dst src n) n NUL
  = firstn n (c_str src ++ repeat NUL n)
    ++ match skipn n dst with [] => [] | _ :: r => NUL :: r end.
Proof.
  unfold strncpy.
  pose proof (store_app_here (firstn n (c_str src ++ repeat NUL n))
                (skipn n dst) NUL) as H.
  rewrite strncpy_prefix_length in H. exact H.
Qed.

(** The string a bounded copy leaves: the source cut at [n] characters. *)
Lemma c_str_store_strncpy dst src n :
  c_str (store (strncpy dst src n) n NUL) = firstn n (c_str src).
Proof.
  rewrite store_strncpy.
  assert (E : c_str (firstn n (c_str src ++ repeat NUL n)) = firstn n (c_str src)).
  { pose proof (c_str_nul_free src) as Hn.
    destruct (Nat.le_gt_cases n (length (c_str src))) as [Hl | Hl].
    - rewrite firstn_app.
      replace (n - length (c_str src))%nat with 0%nat by lia.
      cbn [firstn]. rewrite app_nil_r.
      apply nul_free_c_str, nul_free_firstn, Hn.
    - rewrite firstn_app, !(firstn_all2 (c_str src)) by lia.
      rewrite firstn_repeat_nul. apply c_str_app_repeat_nul, Hn. }
  destruct (skipn n dst).
  - rewrite app_nil_r. exact E.
  - rewrite c_str_app_nul. exact E.
Qed.

(** Copying the same source again changes nothing. *)
Lemma store_strncpy_idem dst src n :
  store (strncpy (store (strncpy dst src n) n NUL) src n) n NUL
  = store (strncpy dst src n) n NUL.
Proof.
  rewrite (store_strncpy (store _ _ _)). rewrite (store_strncpy dst) at 1.
  rewrite skipn_app, strncpy_prefix_length, Nat.sub_diag.
  rewrite skipn_all2 by (rewrite strncpy_prefix_length; lia).
  cbn [skipn app]. rewrite store_strncpy.
  destruct (skipn n dst); reflexivity.
Qed.

Lemma sprintf_into_idem dst out :
  sprintf_into (sprintf_into dst out) out = sprintf_into dst out.
Proof.
  unfold sprintf_into. do 2 f_equal.
  rewrite skipn_app.
  rewrite skipn_all2 by lia.
  replace (S (length out) - length out)%nat with 1%nat by lia.
  reflexivity.
Qed.

(** The conversion reads the first six characters only. *)
Lemma adjustTimeZone_firstn a b :
  firstn 6 a = firstn 6 b -> adjustTimeZone a = adjustTimeZone b.
Proof.
  intros E.
  assert (H : forall i, (i < 6)%nat -> char_at a i = char_at b i).
  { intros i Hi. unfold char_at.
    rewrite <- (firstn_skipn 6 a), <- (firstn_skipn 6 b), E.
    destruct (Nat.lt_ge_cases i (length (firstn 6 b))) as [L | L].
    - rewrite !app_nth1 by exact L. reflexivity.
    - assert (La : length (firstn 6 a) = length (firstn 6 b)) by (rewrite E; reflexivity).
      rewrite !length_firstn in La. rewrite length_firstn in L.
      assert (length a = length b) by lia.
      rewrite !nth_overflow; [reflexivity | |];
        rewrite length_app, length_firstn, length_skipn; lia. }
  unfold adjustTimeZone, adjusted, digit_at.
  rewrite !H by lia. reflexivity.
Qed.

Lemma firstn_store_strncpy dst t :
  (6 <= strlen t)%nat ->
  firstn 6 (store (strncpy dst t 6) 6 NUL) = firstn 6 (c_str t).
Proof.
  intros H. unfold strlen in H. rewrite store_strncpy.
  rewrite firstn_app, strncpy_prefix_length, Nat.sub_diag, firstn_O, app_nil_r.
  rewrite firstn_firstn, Nat.min_id, firstn_app.
  replace (6 - length (c_str t))%nat with 0%nat by lia.
  cbn [firstn]. apply app_nil_r.
Qed.

(** [report] uses the time buffer through the conversion only. *)
Lemma report_same_conversion t1 t2 g :
  adjustTimeZone t1 = adjustTimeZone t2 -> report (t1, g) = report (t2, g).
Proof. intros E. unfold report. rewrite E. reflexivity. Qed.

Lemma string_of_uint_nul_free d :
  nul_free (lit (NilEmpty.string_of_uint d)) = true.
Proof.
  induction d; cbn [NilEmpty.string_of_uint lit list_ascii_of_string];
    try reflexivity; exact IHd.
Qed.

Lemma fmt_02d_nul_free n : nul_free (fmt_02d n) = true.
Proof.
  unfold fmt_02d.
  assert (H : nul_free (lit (NilZero.string_of_uint (N.to_uint (Z.abs_N n)))) = true).
  { unfold NilZero.string_of_uint.
    destruct (N.to_uint (Z.abs_N n)); try reflexivity; apply string_of_uint_nul_free. }
  destruct (n <? 0).
  - cbn [nul_free forallb]. exact H.
  - rewrite nul_free_app, H, andb_true_r.
    generalize (2 - length (lit (NilZero.string_of_uint (N.to_uint (Z.abs_N n)))))%nat.
    intros k. induction k; [reflexivity | exact IHk].
Qed.

Lemma adjustTimeZone_nul_free utc : nul_free (adjustTimeZone utc) = true.
Proof.
  unfold adjustTimeZone. destruct (adjusted utc) as [[h m] s].
  rewrite !nul_free_app, !fmt_02d_nul_free. reflexivity.
Qed.

Lemma c_str_sprintf_into dst utc :
  c_str (sprintf_into dst (adjustTimeZone utc)) = adjustTimeZone utc.
Proof.
  unfold sprintf_into. rewrite c_str_app_nul.
  apply nul_free_c_str, adjustTimeZone_nul_free.
Qed.

Lemma field_nul_free sentence k t :
  field sentence k = Some t -> c_str t = t.
Proof.
  intros H. apply nul_free_c_str.
  pose proof (fields_nul_free _ (c_str_nul_free sentence)) as F.
  rewrite Forall_forall in F. apply F. eapply nth_error_In, H.
Qed.

(** X3: for a sentence none of whose fields 0..9 is empty, with status A,
    a time field of 6 characters or more that begins with six decimal
    digits and a date field of 6 characters or more, the decode is
    Updated and every member comes from its own field: the date is the
    first 6 characters of field 9 (never moved on when the local time wraps
    past midnight), the local time the conversion of the first 6
    characters of field 1 (six characters, so that [time] is not overrun),
    latitude and longitude the first 10 characters
    of fields 3 and 5, the hemispheres the first characters of fields 4 and
    6, the speed the conversion of field 7. *)
Theorem parseRMC_updated_by_position (tempTime0 : list ascii) (g : GpsData)
    (sentence f1 f2 f3 f4 f5 f6 f7 f9 : list ascii) :
  no_empty_field 10 sentence = true ->
  field sentence 1 = Some f1 -> (6 <= length f1)%nat ->
  forallb is_digit (firstn 6 f1) = true ->
  field sentence 2 = Some ("A"%char :: f2) ->
  field sentence 3 = Some f3 -> field sentence 4 = Some f4 ->
  field sentence 5 = Some f5 -> field sentence 6 = Some f6 ->
  field sentence 7 = Some f7 ->
  field sentence 9 = Some f9 -> (6 <= length f9)%nat ->
  let g' := fst (parseRMC tempTime0 g sentence) in
  outcome_of (snd (parseRMC tempTime0 g sentence)) = Updated
  /\ dataReady g' = true /\ fixMode g' = Active
  /\ c_str (date g') = firstn 6 f9
  /\ c_str (time g') = adjustTimeZone (firstn 6 f1)
  /\ length (c_str (time g')) = 6%nat
  /\ c_str (lat g') = firstn 10 f3 /\ ns g' = char_at f4 0
  /\ c_str (lon g') = firstn 10 f5 /\ ew g' = char_at f6 0
  /\ speed g' = F_knots_to_kmh f7.
Proof.
  intros Hne H1 L1 Hdig H2 H3 H4 H5 H6 H7 H9 L9 g'. subst g'.
  rewrite parseRMC_positional by exact Hne.
  set (st := traversed (fields (c_str sentence)) tempTime0 g).
  pose proof (field_strlen _ _ _ H1) as S1. pose proof (field_strlen _ _ _ H3) as S3.
  pose proof (field_strlen _ _ _ H4) as S4. pose proof (field_strlen _ _ _ H5) as S5.
  pose proof (field_strlen _ _ _ H6) as S6. pose proof (field_strlen _ _ _ H7) as S7.
  pose proof (field_strlen _ _ _ H9) as S9.
  assert (P : forall k t, (k < 10)%nat -> field sentence k = Some t -> (0 <? strlen t)%nat = true).
  { intros k t Hk Hf. rewrite (field_strlen _ _ _ Hf).
    rewrite <- (token_is_field sentence 10 k Hne Hk) in Hf.
    apply Nat.ltb_lt, (token_strlen _ _ _ Hf). }
  unfold field in *.
  assert (Hst : st = (store (strncpy tempTime0 f1 6) 6 NUL,
                      mkGpsData (store (strncpy (date g) f9 6) 6 NUL) (time g)
                        (store (strncpy (lat g) f3 10) 10 NUL) (char_at f4 0)
                        (store (strncpy (lon g) f5 10) 10 NUL) (char_at f6 0)
                        (F_knots_to_kmh f7) "A"%char true)).
  { subst st. unfold traversed, on_token.
    rewrite H1, H2, H3, H4, H5, H6, H7, H9.
    rewrite (P 3%nat f3), (P 4%nat f4), (P 5%nat f5), (P 6%nat f6), (P 7%nat f7)
      by (lia || assumption).
    rewrite (P 2%nat _ ltac:(lia) H2).
    rewrite S1, S9. apply Nat.leb_le in L1, L9. rewrite L1, L9. reflexivity. }
  rewrite Hst. unfold report. cbn [dataReady mode andb Ascii.eqb Bool.eqb fst snd].
  cbn [outcome_of set_time date time lat ns lon ew speed mode dataReady].
  unfold fixMode. cbn [mode Ascii.eqb Bool.eqb].
  rewrite !c_str_store_strncpy, c_str_sprintf_into.
  rewrite (field_nul_free sentence 9 f9 H9), (field_nul_free sentence 3 f3 H3),
    (field_nul_free sentence 5 f5 H5).
  assert (Ea : adjustTimeZone (store (strncpy tempTime0 f1 6) 6 NUL)
               = adjustTimeZone (firstn 6 f1)).
  { apply adjustTimeZone_firstn. rewrite firstn_store_strncpy by lia.
    rewrite (field_nul_free sentence 1 f1 H1), firstn_firstn. reflexivity. }
  rewrite Ea. repeat split.
  apply adjustTimeZone_digits_length.
  - rewrite firstn_firstn. exact Hdig.
  - rewrite length_firstn. lia.
Qed.

Lemma parseRMC_updated_by_position_witness :
  (no_empty_field 10 sample = true
   /\ field sample 1 = Some (lit "123519")
   /\ forallb is_digit (firstn 6 (lit "123519")) = true
   /\ field sample 2 = Some (lit "A")
   /\ field sample 9 = Some (lit "230394"))
  /\ c_str (time (fst (parseRMC (repeat NUL 7) gps_zero sample)))
     = adjustTimeZone (firstn 6 (lit "123519"))
  /\ c_str (date (fst (parseRMC (repeat NUL 7) gps_zero sample)))
     = firstn 6 (lit "230394").
Proof.
  split; [repeat split |].
  destruct (parseRMC_updated_by_position (repeat NUL 7) gps_zero sample
              (lit "123519") [] (lit "4807.038") (lit "N") (lit "01131.000")
              (lit "E") (lit "022.4") (lit "230394"))
    as (_ & _ & _ & Hd & Ht & _);
    try reflexivity; try (cbn; lia).
  split; [exact Ht | exact Hd].
Defined.

(** X4: when the time token has six characters or more, the decode does
    not depend on what the stack held under [tempTime]: record and serial
    output are a function of the previous record and the sentence. *)
Theorem parseRMC_stack_independent (stack1 stack2 : list ascii) (g : GpsData)
    (sentence : list ascii) :
  time_token_long sentence = true ->
  parseRMC stack1 g sentence = parseRMC stack2 g sentence.
Proof.
  unfold time_token_long, on_token. intros H.
  rewrite !parseRMC_traversed.
  destruct (nth_error (tokens (c_str sentence)) 1) as [t |] eqn:E; [| discriminate].
  destruct (token_strlen _ _ _ E) as [Hs _].
  set (toks := tokens (c_str sentence)) in *.
  change (traversed toks stack1 g)
    with (fst (traversed toks stack1 g), snd (traversed toks stack1 g)).
  change (traversed toks stack2 g)
    with (fst (traversed toks stack2 g), snd (traversed toks stack1 g)).
  apply report_same_conversion, adjustTimeZone_firstn.
  unfold traversed, on_token. cbn [fst]. rewrite E, Hs, H.
  apply Nat.leb_le in H.
  rewrite !firstn_store_strncpy by (rewrite Hs; lia). reflexivity.
Qed.

Lemma parseRMC_stack_independent_witness :
  time_token_long sample = true
  /\ parseRMC (repeat NUL 7) gps_zero sample
     = parseRMC (lit "9999999") gps_zero sample.
Proof.
  split; [reflexivity |].
  apply (parseRMC_stack_independent (repeat NUL 7) (lit "9999999") gps_zero sample).
  reflexivity.
Defined.

(** The loop leaves in the record exactly what a second pass over the same
    tokens would write. *)
Lemma traversed_again toks tempTime0 g v :
  traversed toks tempTime0 (set_time (snd (traversed toks tempTime0 g)) v)
  = (fst (traversed toks tempTime0 g),
     set_time (snd (traversed toks tempTime0 g)) v).
Proof.
  unfold traversed, on_token, set_time.
  cbn [fst snd date time lat ns lon ew speed mode dataReady].
  f_equal. f_equal.
  - destruct (nth_error toks 9) as [t |]; [| reflexivity].
    destruct (6 <=? strlen t)%nat eqn:E; [| rewrite ?E; reflexivity].
    apply store_strncpy_idem.
  - destruct (nth_error toks 3) as [t |]; [| reflexivity].
    destruct (0 <? strlen t)%nat eqn:E; [| rewrite ?E; reflexivity].
    apply store_strncpy_idem.
  - destruct (nth_error toks 4) as [t |]; [| reflexivity].
    destruct (0 <? strlen t)%nat; reflexivity.
  - destruct (nth_error toks 5) as [t |]; [| reflexivity].
    destruct (0 <? strlen t)%nat eqn:E; [| rewrite ?E; reflexivity].
    apply store_strncpy_idem.
  - destruct (nth_error toks 6) as [t |]; [| reflexivity].
    destruct (0 <? strlen t)%nat; reflexivity.
  - destruct (nth_error toks 7) as [t |]; [| reflexivity].
    destruct (0 <? strlen t)%nat; reflexivity.
  - destruct (nth_error toks 2) as [t |]; [| reflexivity].
    destruct (0 <? strlen t)%nat; reflexivity.
Qed.

Lemma set_time_same g : set_time g (time g) = g.
Proof. destruct g; reflexivity. Qed.

(** [parseRMC] on a fresh copy of a sentence, from the record a first call
    on that sentence left and with the same stack contents, ends in the
    same record and prints the same. (The buffer of the first call itself
    is no such copy: [strtok] has cut it at its commas.) *)
Lemma parseRMC_fresh_copy_again (tempTime0 : list ascii) (g : GpsData)
    (sentence : list ascii) :
  parseRMC tempTime0 (fst (parseRMC tempTime0 g sentence)) sentence
  = parseRMC tempTime0 g sentence.
Proof.
  rewrite !parseRMC_traversed.
  set (toks := tokens (c_str sentence)).
  pose proof (traversed_again toks tempTime0 g) as A.
  destruct (traversed toks tempTime0 g) as [tt g1] eqn:E. cbn [fst snd] in A.
  assert (Ht : time g1 = time g).
  { change g1 with (snd (tt, g1)). rewrite <- E. reflexivity. }
  unfold report at 2.
  destruct (dataReady g1 && Ascii.eqb (mode g1) "A") eqn:C.
  - cbn [fst]. rewrite A. unfold report.
    cbn [dataReady mode set_time date time lat ns lon ew speed].
    rewrite C. rewrite sprintf_into_idem. reflexivity.
  - assert (R : traversed toks tempTime0 g1 = (tt, g1)).
    { rewrite <- (set_time_same g1) at 1.
      rewrite A, set_time_same. reflexivity. }
    destruct (Ascii.eqb (mode g1) "V") eqn:V; cbn [fst]; rewrite R;
      unfold report; rewrite C, V; reflexivity.
Qed.

Lemma c_str_app a b :
  c_str (a ++ b) = if nul_free a then a ++ c_str b else c_str a.
Proof.
  induction a as [| c a IH]; [reflexivity |].
  cbn [app c_str nul_free forallb]. destruct (is_nul c); [reflexivity |].
  cbn [negb andb]. rewrite IH. fold (nul_free a).
  destruct (nul_free a); reflexivity.
Qed.

Lemma fields_not_nil s : fields s <> [].
Proof.
  destruct s as [| c r]; cbn [fields]; [discriminate |].
  destruct (is_comma c); [discriminate |]. destruct (fields r); discriminate.
Qed.

(** Splitting at a comma: the fields before it, then the fields after. *)
Lemma fields_app_comma a b : fields (a ++ comma :: b) = fields a ++ fields b.
Proof.
  induction a as [| c a IH]; [reflexivity |].
  cbn [app fields]. destruct (is_comma c).
  - rewrite IH. reflexivity.
  - rewrite IH. pose proof (fields_not_nil a) as N.
    destruct (fields a); [contradiction | reflexivity].
Qed.

Lemma tokens_app_comma a b : tokens (a ++ comma :: b) = tokens a ++ tokens b.
Proof. unfold tokens. rewrite fields_app_comma. apply filter_app. Qed.

Lemma tokens_comma b : tokens (comma :: b) = tokens b.
Proof. reflexivity. Qed.

(** X6: the decoder does not see empty fields: a comma written twice,
    a comma in front of the sentence and a comma at its end all leave the
    decode as it is without them. *)
Theorem parseRMC_ignores_empty_fields (tempTime0 : list ascii) (g : GpsData)
    (a b : list ascii) :
  parseRMC tempTime0 g (a ++ comma :: comma :: b)
  = parseRMC tempTime0 g (a ++ comma :: b)
  /\ parseRMC tempTime0 g (comma :: a) = parseRMC tempTime0 g a
  /\ parseRMC tempTime0 g (a ++ [comma]) = parseRMC tempTime0 g a.
Proof.
  rewrite !parseRMC_traversed.
  assert (E1 : tokens (c_str (a ++ comma :: comma :: b))
               = tokens (c_str (a ++ comma :: b))).
  { rewrite !c_str_app. destruct (nul_free a); [| reflexivity].
    change (c_str (comma :: comma :: b)) with (comma :: comma :: c_str b).
    change (c_str (comma :: b)) with (comma :: c_str b).
    rewrite !tokens_app_comma. reflexivity. }
  assert (E2 : tokens (c_str (comma :: a)) = tokens (c_str a)) by reflexivity.
  assert (E3 : tokens (c_str (a ++ [comma])) = tokens (c_str a)).
  { rewrite c_str_app. destruct (nul_free a) eqn:N; [| reflexivity].
    change (c_str [comma]) with [comma].
    rewrite tokens_app_comma, (nul_free_c_str a N). apply app_nil_r. }
  rewrite E1, E2, E3. repeat split.
Qed.

(** X7: a sentence with fewer than ten fields (fewer than nine commas) is
    never Updated: dataReady ends false, and neither the date nor the local
    time is written. *)
Theorem parseRMC_short_sentence (tempTime0 : list ascii) (g : GpsData)
    (sentence : list ascii) :
  (length (fields (c_str sentence)) < 10)%nat ->
  let g' := fst (parseRMC tempTime0 g sentence) in
  dataReady g' = false
  /\ outcome_of (snd (parseRMC tempTime0 g sentence)) <> Updated
  /\ date g' = date g /\ time g' = time g.
Proof.
  intros Hl g'. subst g'.
  assert (N : nth_error (tokens (c_str sentence)) 9 = None).
  { apply nth_error_None. unfold tokens.
    pose proof (filter_length_le nonempty (fields (c_str sentence))). lia. }
  rewrite parseRMC_traversed.
  set (st := traversed (tokens (c_str sentence)) tempTime0 g).
  assert (Hd : dataReady (snd st) = false).
  { subst st. unfold traversed, on_token. cbn [snd dataReady]. rewrite N. reflexivity. }
  assert (Hda : date (snd st) = date g).
  { subst st. unfold traversed, on_token. cbn [snd date]. rewrite N. reflexivity. }
  rewrite (report_not_ready st Hd). cbn [fst snd].
  split; [exact Hd |]. split; [| split; [exact Hda | reflexivity]].
  destruct (Ascii.eqb (mode (snd st)) "V"); discriminate.
Qed.

Lemma parseRMC_short_sentence_witness :
  (length (fields (c_str (lit "GPRMC,123519,A,4807.038,N"))) < 10)%nat
  /\ dataReady (fst (parseRMC (repeat NUL 7) (set_dataReady gps_zero true)
                      (lit "GPRMC,123519,A,4807.038,N"))) = false.
Proof.
  split; [cbn; lia |].
  apply (parseRMC_short_sentence (repeat NUL 7) (set_dataReady gps_zero true)
           (lit "GPRMC,123519,A,4807.038,N")).
  cbn; lia.
Defined.

(** ** Decoder and scheduler *)

(** X9: what the scheduler does with the record a decode leaves agrees with
    the outcome of that decode: after Updated it writes the very line the
    decoder printed (or reports the write error when the file does not
    open), after SignalLost it reports the lost signal, otherwise it
    reports that the data is not ready. *)
Theorem log_action_follows_decode (tempTime0 : list ascii) (g : GpsData)
    (sentence : list ascii) (opened : bool) :
  log_action (fst (parseRMC tempTime0 g sentence)) opened
  = match snd (parseRMC tempTime0 g sentence) with
    | FixLine d t lo e la n sp :: _ =>
        if opened then WriteRecord (FixLine d t lo e la n sp) else WriteError
    | SignalLostLine :: _ => ReportLost
    | [] => ReportNotReady
    end.
Proof.
  rewrite parseRMC_traversed.
  destruct (traversed (tokens (c_str sentence)) tempTime0 g) as [tt g1].
  unfold report, log_action.
  destruct (dataReady g1 && Ascii.eqb (mode g1) "A") eqn:C.
  - cbn [fst snd set_time dataReady mode date time lat ns lon ew speed].
    rewrite C. reflexivity.
  - destruct (Ascii.eqb (mode g1) "V") eqn:V; cbn [fst snd]; rewrite C, V;
      reflexivity.
Qed.

(** ** The filter of [loop] *)

Lemma prefix_of_app p r : prefix_of p (p ++ r) = true.
Proof.
  induction p as [| c p IH]; [reflexivity |].
  cbn [app prefix_of]. rewrite Ascii.eqb_refl. exact IH.
Qed.

Lemma prefix_of_true p : forall s,
  prefix_of p s = true -> exists r, s = p ++ r.
Proof.
  induction p as [| c p IH]; intros s H.
  - exists s. reflexivity.
  - destruct s as [| d s]; [discriminate |]. cbn [prefix_of] in H.
    apply andb_true_iff in H as [Hc Hp]. apply Ascii.eqb_eq in Hc. subst d.
    destruct (IH s Hp) as [r ->]. exists r. reflexivity.
Qed.

(** [strstr] finds the needle exactly when it occurs somewhere. *)
Lemma strstr_true hay needle :
  strstr hay needle = true <-> exists a b, hay = a ++ needle ++ b.
Proof.
  split.
  - induction hay as [| c hay IH]; cbn [strstr]; intros H;
      apply orb_true_iff in H as [H | H].
    + apply prefix_of_true in H as [r ->]. exists [], r. reflexivity.
    + discriminate.
    + apply prefix_of_true in H as [r ->]. exists [], r. reflexivity.
    + destruct (IH H) as (a & b & ->). exists (c :: a), b. reflexivity.
  - intros (a & b & ->). induction a as [| c a IH].
    + cbn [app]. destruct (needle ++ b) eqn:E; cbn [strstr];
        rewrite <- E, prefix_of_app; reflexivity.
    + cbn [app strstr]. rewrite IH. apply orb_true_r.
Qed.

(** X8: a buffer is decoded exactly when GNRMC or GPRMC occurs anywhere in
    its string (not only as field 0); otherwise the outcome is NotRmc and
    the record, dataReady included, is left untouched. *)
Theorem decode_filters_by_substring (tempTime0 : list ascii) (g : GpsData)
    (buffer : list ascii) :
  (snd (decode tempTime0 g buffer) <> NotRmc <->
   exists a b, c_str buffer = a ++ lit "GNRMC" ++ b
               \/ c_str buffer = a ++ lit "GPRMC" ++ b)
  /\ (snd (decode tempTime0 g buffer) = NotRmc ->
      fst (decode tempTime0 g buffer) = g)
  /\ (snd (decode tempTime0 g buffer) <> NotRmc ->
      decode tempTime0 g buffer
      = (fst (parseRMC tempTime0 g buffer),
         outcome_of (snd (parseRMC tempTime0 g buffer)))).
Proof.
  assert (O : forall out, outcome_of out <> NotRmc).
  { intros [| [] ?]; discriminate. }
  assert (M : is_rmc buffer = true <->
              exists a b, c_str buffer = a ++ lit "GNRMC" ++ b
                          \/ c_str buffer = a ++ lit "GPRMC" ++ b).
  { unfold is_rmc. rewrite orb_true_iff, !strstr_true. split.
    - intros [(a & b & E) | (a & b & E)]; exists a, b; auto.
    - intros (a & b & [E | E]); [left | right]; exists a, b; exact E. }
  unfold decode. destruct (is_rmc buffer).
  - destruct (parseRMC tempTime0 g buffer) as [g' out]. cbn [fst snd].
    split; [| split].
    + split; [intros _; apply M; reflexivity | intros _; apply O].
    + intros H. contradiction (O out).
    + reflexivity.
  - cbn [fst snd]. split; [| split].
    + split; [intros H; contradiction H; reflexivity |].
      intros H. apply M in H. discriminate.
    + reflexivity.
    + intros H. contradiction H. reflexivity.
Qed.

(** X10: a buffer handed to [decode] keeps the strings of the record
    within their arrays (date and local time at most 6 characters, latitude
    and longitude at most 10, each NUL-terminated) when its time token has
    six characters or more, the first six decimal digits. *)
Theorem decode_keeps_strings (tempTime0 : list ascii) (g : GpsData)
    (buffer : list ascii) :
  fix_strings_ok g -> time_token_ok buffer = true ->
  fix_strings_ok (fst (decode tempTime0 g buffer)).
Proof.
  intros Hg Ht. unfold decode. destruct (is_rmc buffer); [| exact Hg].
  pose proof (parseRMC_keeps_strings tempTime0 g buffer Hg Ht) as H.
  destruct (parseRMC tempTime0 g buffer). exact H.
Qed.

Lemma decode_keeps_strings_witness :
  (fix_strings_ok gps_zero /\ time_token_ok sample = true)
  /\ fix_strings_ok (fst (decode (lit "-------") gps_zero sample)).
Proof.
  split; [split; [exact fix_strings_ok_zero | reflexivity] |].
  apply (decode_keeps_strings (lit "-------") gps_zero sample
           fix_strings_ok_zero).
  reflexivity.
Defined.

(** ** More on the assembler *)

(** X11: whatever bytes arrive, the buffer keeps its 128 bytes and the
    cursor stays below 128: it is the number of bytes received since the
    last [$] or terminator, capped at 127, so that the store of the
    terminating NUL is always inside the buffer. *)
Theorem feed_all_within_buffer (bs : list ascii) :
  let a := feed_all bs asm_init in
  length (buffer a) = BUFFER_SIZE
  /\ bufferIndex a = Nat.min (BUFFER_SIZE - 1) (length (pending bs))
  /\ (bufferIndex a < length (buffer a))%nat.
Proof.
  destruct (feed_all_holds bs asm_init [] asm_holds_init) as (Hl & Hi & _).
  fold (pending bs) in Hi. rewrite length_firstn in Hi.
  cbv zeta. rewrite Hl, Hi. unfold BUFFER_SIZE. repeat split. lia.
Qed.

Lemma feed_out_app bs1 : forall bs2 a,
  feed_out (bs1 ++ bs2) a = feed_out bs1 a ++ feed_out bs2 (feed_all bs1 a).
Proof.
  induction bs1 as [| c r IH]; intros bs2 a; [reflexivity |].
  cbn [app feed_out feed_all]. destruct (feed c a) as [a' [b |]]; cbn [fst];
    rewrite IH; reflexivity.
Qed.

Lemma frame_clean_cons c s :
  frame_clean (c :: s) = true ->
  is_dollar c = false /\ is_term c = false /\ frame_clean s = true.
Proof.
  cbn [frame_clean forallb]. intros H. apply andb_true_iff in H as [Hc Hs].
  apply negb_true_iff, orb_false_iff in Hc. tauto.
Qed.

Lemma feed_out_clean s : forall a, frame_clean s = true -> feed_out s a = [].
Proof.
  induction s as [| c s IH]; intros a H; [reflexivity |].
  apply frame_clean_cons in H as (Hd & Ht & Hs).
  cbn [feed_out]. unfold feed. rewrite Hd, Ht.
  destruct (bufferIndex a <? BUFFER_SIZE - 1)%nat; apply IH, Hs.
Qed.

Lemma pending_from_clean s : forall acc,
  frame_clean s = true -> pending_from acc s = acc ++ s.
Proof.
  induction s as [| c s IH]; intros acc H; [symmetry; apply app_nil_r |].
  apply frame_clean_cons in H as (Hd & Ht & Hs).
  cbn [pending_from]. rewrite Hd, Ht. cbn [orb]. rewrite IH by exact Hs.
  rewrite <- app_assoc. reflexivity.
Qed.

(** A terminator arriving in a state that holds the pending bytes [acc]. *)
Lemma feed_terminator c a acc :
  asm_holds a acc -> is_term c = true ->
  asm_holds (fst (feed c a)) []
  /\ match snd (feed c a) with
     | Some b => acc <> [] /\ c_str b = c_str (firstn (BUFFER_SIZE - 1) acc)
     | None => acc = []
     end.
Proof.
  intros H Ht. pose proof (feed_holds c a acc H) as H'.
  rewrite Ht, orb_true_r in H'. split; [exact H' |].
  destruct H as (Hl & Hi & Hb). unfold feed.
  rewrite (is_term_not_dollar c Ht), Ht.
  destruct (0 <? bufferIndex a)%nat eqn:E; cbn [snd].
  - apply Nat.ltb_lt in E. split.
    + intros ->. rewrite firstn_nil in Hi. cbn in Hi. lia.
    + rewrite store_split, Hb, c_str_app_nul; [reflexivity |].
      rewrite Hi, Hl, length_firstn. unfold BUFFER_SIZE. lia.
  - apply Nat.ltb_ge in E. destruct acc; [reflexivity |].
    cbn in Hi. lia.
Qed.

Lemma feed_dollar a acc :
  asm_holds a acc ->
  asm_holds (fst (feed dollar a)) [] /\ snd (feed dollar a) = None.
Proof.
  intros H. pose proof (feed_holds dollar a acc H) as H'.
  split; [exact H' | reflexivity].
Qed.

(** X13: a sentence framed as [$], its characters (free of [$], CR and LF),
    CR, LF comes out of the assembler once, as the string of its first 127
    characters, whatever bytes were received before the [$]; a frame with
    no characters gives nothing. *)
Theorem framed_sentence_emitted_once (pre s : list ascii) :
  frame_clean s = true ->
  feed_out (pre ++ dollar :: s ++ [CR; LF]) asm_init
  = feed_out pre asm_init
    ++ match s with
       | [] => []
       | _ :: _ => [c_str (firstn (BUFFER_SIZE - 1) s)]
       end.
Proof.
  intros Hs. rewrite feed_out_app. f_equal.
  pose proof (feed_all_holds pre asm_init [] asm_holds_init) as H0.
  set (a0 := feed_all pre asm_init) in *.
  destruct (feed_dollar a0 _ H0) as [H1 N1].
  change (dollar :: s ++ [CR; LF]) with ([dollar] ++ s ++ [CR; LF]).
  rewrite feed_out_app. cbn [feed_out feed_all].
  destruct (feed dollar a0) as [a1 o1] eqn:E1. cbn [fst snd] in *. subst o1.
  cbn [app]. rewrite feed_out_app, (feed_out_clean s a1 Hs). cbn [app].
  pose proof (feed_all_holds s a1 [] H1) as H2.
  rewrite (pending_from_clean s [] Hs) in H2. cbn [app] in H2.
  set (a2 := feed_all s a1) in *.
  destruct (feed_terminator CR a2 s H2 eq_refl) as [H3 O3].
  cbn [feed_out]. destruct (feed CR a2) as [a3 o3]. cbn [fst snd] in *.
  destruct (feed_terminator LF a3 [] H3 eq_refl) as [_ O4].
  destruct (feed LF a3) as [a4 o4]. cbn [snd] in O4.
  destruct o4 as [b4 |]; [destruct O4 as [O4 _]; contradiction O4; reflexivity |].
  destruct o3 as [b3 |].
  - destruct O3 as [Hne ->]. destruct s; [contradiction Hne |]; reflexivity.
  - subst s. reflexivity.
Qed.

Lemma framed_sentence_emitted_once_witness :
  frame_clean sample = true
  /\ feed_out (lit "@@!" ++ dollar :: sample ++ [CR; LF]) asm_init
     = feed_out (lit "@@!") asm_init ++ [c_str (firstn (BUFFER_SIZE - 1) sample)].
Proof.
  split; [reflexivity |].
  apply (framed_sentence_emitted_once (lit "@@!") sample). reflexivity.
Defined.

(** ** Part A of [loop] as a whole *)

Lemma parseRMC_keeps_date_lon tempTime0 g sentence :
  date_lon_ok g -> date_lon_ok (fst (parseRMC tempTime0 g sentence)).
Proof.
  intros ((Hd1 & Hd2) & (Ho1 & Ho2)).
  rewrite parseRMC_traversed.
  set (st := traversed (tokens (c_str sentence)) tempTime0 g).
  destruct (report_members st) as (Ed & _ & _ & Eo & _).
  unfold date_lon_ok. rewrite Ed, Eo. subst st.
  unfold traversed, on_token. cbn [snd date lon].
  split.
  - destruct (nth_error _ 9); [| auto]. destruct (6 <=? strlen l)%nat; [| auto].
    destruct (copy_terminated (date g) l 6 Hd1) as (? & ? & _). auto.
  - destruct (nth_error _ 5); [| auto]. destruct (0 <? strlen l)%nat; [| auto].
    destruct (copy_terminated (lon g) l 10 Ho1) as (? & ? & _). auto.
Qed.

Lemma date_lon_ok_zero : date_lon_ok gps_zero.
Proof. unfold date_lon_ok. cbn. repeat split; lia. Qed.

Lemma loop_byte_state tempTime0 c a g :
  fst (fst (loop_byte tempTime0 c (a, g))) = fst (feed c a)
  /\ snd (fst (loop_byte tempTime0 c (a, g)))
     = match snd (feed c a) with
       | Some b => fst (decode tempTime0 g b)
       | None => g
       end.
Proof.
  unfold loop_byte. destruct (feed c a) as [a' [b |]]; cbn [fst snd].
  - destruct (decode tempTime0 g b). split; reflexivity.
  - split; reflexivity.
Qed.

Lemma reachable_holds st :
  reachable st -> (exists acc, asm_holds (fst st) acc) /\ date_lon_ok (snd st).
Proof.
  induction 1 as [| [a g] tempTime0 c _ [[acc Ha] Hg]].
  - split; [exists []; exact asm_holds_init | exact date_lon_ok_zero].
  - cbn [fst snd] in *.
    destruct (loop_byte_state tempTime0 c a g) as [-> ->]. split.
    + eexists. apply feed_holds, Ha.
    + destruct (snd (feed c a)) as [b |]; [| exact Hg].
      unfold decode. destruct (is_rmc b); [| exact Hg].
      pose proof (parseRMC_keeps_date_lon tempTime0 g b Hg) as H.
      destruct (parseRMC tempTime0 g b). exact H.
Qed.

Lemma reachable_loop_bytes tempTime0 bs : forall st,
  reachable st -> reachable (fst (loop_bytes tempTime0 bs st)).
Proof.
  induction bs as [| c r IH]; intros st H; [exact H |].
  cbn [loop_bytes].
  pose proof (reachable_byte st tempTime0 c H) as H1.
  destruct (loop_byte tempTime0 c st) as [st' o]. cbn [fst] in H1.
  specialize (IH st' H1).
  destruct (loop_bytes tempTime0 r st') as [st'' os]. exact IH.
Qed.

(** X12: in every state [loop] can reach, whatever bytes arrived and
    whatever the stack held (decodes that overrun [time] included), the
    cursor is inside the 128-byte buffer and the arrays [date] and [lon]
    keep their sizes and hold NUL-terminated strings of at most 6 and 10
    characters. *)
Theorem loop_keeps_date_lon (st : Assembler * GpsData) :
  reachable st ->
  length (buffer (fst st)) = BUFFER_SIZE
  /\ (bufferIndex (fst st) < BUFFER_SIZE)%nat
  /\ date_lon_ok (snd st).
Proof.
  intros H. destruct (reachable_holds st H) as [[acc (Hl & Hi & _)] Hg].
  split; [exact Hl |]. split; [| exact Hg].
  rewrite Hi, length_firstn. unfold BUFFER_SIZE. lia.
Qed.

Lemma loop_keeps_date_lon_witness :
  let st := fst (loop_bytes (repeat NUL 7) (frame sample_short_time)
                   (asm_init, gps_zero)) in
  reachable st
  /\ c_str (time (snd st)) = lit "-3-18-528"
  /\ c_str (date (snd st)) = lit "230394"
  /\ c_str (lon (snd st)) = lit "01131.000"
  /\ date_lon_ok (snd st).
Proof.
  assert (H : reachable (fst (loop_bytes (repeat NUL 7) (frame sample_short_time)
                               (asm_init, gps_zero))))
    by (apply reachable_loop_bytes, reachable_init).
  cbv zeta. split; [exact H |].
  split; [reflexivity |]. split; [reflexivity |]. split; [reflexivity |].
  apply (loop_keeps_date_lon _ H).
Defined.

Lemma decode_c_str tempTime0 g b1 b2 :
  c_str b1 = c_str b2 -> decode tempTime0 g b1 = decode tempTime0 g b2.
Proof.
  intros E. unfold decode, is_rmc, parseRMC. rewrite E. reflexivity.
Qed.

Lemma loop_bytes_app tempTime0 bs1 : forall bs2 st,
  loop_bytes tempTime0 (bs1 ++ bs2) st
  = (fst (loop_bytes tempTime0 bs2 (fst (loop_bytes tempTime0 bs1 st))),
     snd (loop_bytes tempTime0 bs1 st)
     ++ snd (loop_bytes tempTime0 bs2 (fst (loop_bytes tempTime0 bs1 st)))).
Proof.
  induction bs1 as [| c r IH]; intros bs2 st.
  - cbn [app loop_bytes fst snd]. destruct (loop_bytes tempTime0 bs2 st); reflexivity.
  - cbn [app loop_bytes]. destruct (loop_byte tempTime0 c st) as [st' o].
    rewrite IH. destruct (loop_bytes tempTime0 r st') as [st'' os].
    cbn [fst snd]. destruct o; reflexivity.
Qed.

(** Bytes that close no sentence change the assembler only. *)
Lemma loop_bytes_clean tempTime0 s : forall a g,
  frame_clean s = true ->
  loop_bytes tempTime0 s (a, g) = ((feed_all s a, g), []).
Proof.
  induction s as [| c s IH]; intros a g H; [reflexivity |].
  pose proof (feed_out_clean (c :: s) a H) as Ho.
  apply frame_clean_cons in H as (Hd & Ht & Hs).
  cbn [loop_bytes feed_all]. unfold loop_byte.
  assert (N : snd (feed c a) = None).
  { unfold feed. rewrite Hd, Ht.
    destruct (bufferIndex a <? BUFFER_SIZE - 1)%nat; reflexivity. }
  destruct (feed c a) as [a' o]. cbn [snd fst] in *. subst o.
  rewrite IH by exact Hs. reflexivity.
Qed.

(** X14: from any state [loop] can be in, the bytes [$], a non-empty
    sentence free of [$], CR and LF, then CR and LF lead to exactly one
    decode, and it is the decode of the first 127 characters of the
    sentence from the record as it was: what was buffered before the [$]
    plays no part. *)
Theorem loop_decodes_framed_sentence (tempTime0 : list ascii)
    (st : Assembler * GpsData) (s : list ascii) :
  reachable st -> frame_clean s = true -> s <> [] ->
  let r := loop_bytes tempTime0 (dollar :: s ++ [CR; LF]) st in
  let d := decode tempTime0 (snd st) (firstn (BUFFER_SIZE - 1) s) in
  snd (fst r) = fst d /\ snd r = [snd d] /\ bufferIndex (fst (fst r)) = 0%nat.
Proof.
  intros Hr Hs Hne. destruct st as [a0 g].
  destruct (reachable_holds _ Hr) as [[acc H0] _]. cbn [fst snd] in *.
  destruct (feed_dollar a0 _ H0) as [H1 N1].
  change (dollar :: s ++ [CR; LF]) with ([dollar] ++ s ++ [CR] ++ [LF]).
  cbv zeta. rewrite !loop_bytes_app.
  assert (E1 : loop_bytes tempTime0 [dollar] (a0, g) = ((fst (feed dollar a0), g), [])).
  { cbn [loop_bytes]. unfold loop_byte.
    destruct (feed dollar a0) as [a1 o1]. cbn [snd fst] in *. subst o1. reflexivity. }
  rewrite E1. cbn [fst snd]. set (a1 := fst (feed dollar a0)) in *.
  rewrite (loop_bytes_clean tempTime0 s a1 g Hs). cbn [fst snd app].
  pose proof (feed_all_holds s a1 [] H1) as H2.
  rewrite (pending_from_clean s [] Hs) in H2. cbn [app] in H2.
  set (a2 := feed_all s a1) in *.
  destruct (feed_terminator CR a2 s H2 eq_refl) as [H3 O3].
  assert (E3 : loop_bytes tempTime0 [CR] (a2, g)
               = ((fst (feed CR a2),
                   fst (decode tempTime0 g (firstn (BUFFER_SIZE - 1) s))),
                  [snd (decode tempTime0 g (firstn (BUFFER_SIZE - 1) s))])).
  { cbn [loop_bytes]. unfold loop_byte.
    destruct (feed CR a2) as [a3 [b3 |]]; cbn [snd fst] in *;
      [| contradiction Hne].
    destruct O3 as [_ Ec].
    rewrite (decode_c_str tempTime0 g b3 (firstn (BUFFER_SIZE - 1) s)) by exact Ec.
    destruct (decode tempTime0 g (firstn (BUFFER_SIZE - 1) s)). reflexivity. }
  rewrite E3. cbn [fst snd]. set (a3 := fst (feed CR a2)) in *.
  destruct (feed_terminator LF a3 [] H3 eq_refl) as [(_ & H4 & _) O4].
  cbn [loop_bytes]. unfold loop_byte.
  destruct (feed LF a3) as [a4 [b4 |]]; cbn [snd fst] in *.
  - destruct O4 as [O4 _]. contradiction O4. reflexivity.
  - repeat split. exact H4.
Qed.

Lemma loop_decodes_framed_sentence_witness :
  (reachable (asm_init, gps_zero) /\ frame_clean sample = true /\ sample <> [])
  /\ snd (loop_bytes (repeat NUL 7) (dollar :: sample ++ [CR; LF])
            (asm_init, gps_zero))
     = [snd (decode (repeat NUL 7) gps_zero (firstn (BUFFER_SIZE - 1) sample))].
Proof.
  assert (H : sample <> []) by discriminate.
  split; [split; [exact reachable_init | split; [reflexivity | exact H]] |].
  apply (loop_decodes_framed_sentence (repeat NUL 7) (asm_init, gps_zero) sample
           reachable_init eq_refl H).
Defined.

(** ** More on the scheduler *)

(** X15: across the wrap of the 32-bit clock a tick still fires exactly
    when 5000 ms or more have elapsed since the last fire, as long as less
    than 2^32 ms (49.7 days) have elapsed. *)
Theorem tick_fires_when_due (t0 t : Z) (g : GpsData) (opened : bool) :
  0 <= t - t0 < 2 ^ 32 ->
  (snd (tick (millis t) (millis t0) g opened) <> None
   <-> LOG_INTERVAL_MS <= t - t0)
  /\ (LOG_INTERVAL_MS <= t - t0 ->
      tick (millis t) (millis t0) g opened
      = (millis t, Some (log_action g opened))).
Proof.
  intros H. unfold tick. rewrite (sub32_millis t0 t H).
  destruct (LOG_INTERVAL_MS <=? t - t0) eqn:E; cbn [snd].
  - apply Z.leb_le in E. split; [split; [auto | discriminate] | reflexivity].
  - apply Z.leb_gt in E. split; [split; [intros N; contradiction N; reflexivity | lia] | lia].
Qed.

Lemma tick_fires_when_due_witness :
  0 <= (2 ^ 32 + 4000) - (2 ^ 32 - 1000) < 2 ^ 32
  /\ tick (millis (2 ^ 32 + 4000)) (millis (2 ^ 32 - 1000)) gps_zero true
     = (4000, Some ReportNotReady).
Proof.
  split; [lia |].
  apply (tick_fires_when_due (2 ^ 32 - 1000) (2 ^ 32 + 4000) gps_zero true);
    unfold LOG_INTERVAL_MS; lia.
Defined.

(** X16: over calls at non-decreasing times, all less than 2^32 ms after
    the time the last-fire stamp stands for, the wrapping 32-bit schedule
    fires at exactly the calls an unbounded clock would choose: each fire
    is the first call 5000 ms or more after the previous fire. *)
Theorem fire_times_as_unwrapped (t0 : Z) (calls : list Call) :
  StronglySorted Z.le (t0 :: map call_time calls) ->
  Forall (fun c => call_time c < t0 + 2 ^ 32) calls ->
  fire_times (millis t0) calls = due_times t0 (map call_time calls).
Proof.
  revert t0. induction calls as [| [[t g] opened] r IH]; intros t0 Hs Hb;
    [reflexivity |].
  apply StronglySorted_inv in Hs as [Hs H0].
  cbn [map call_time fst] in Hs, H0.
  apply Forall_cons_iff in H0 as [Ht H0].
  apply Forall_cons_iff in Hb as [Bt Hb]. cbn [call_time fst] in Bt.
  cbn [fire_times map call_time fst due_times]. unfold tick.
  rewrite (sub32_millis t0 t) by lia.
  destruct (LOG_INTERVAL_MS <=? t - t0) eqn:E.
  - f_equal. apply IH; [exact Hs |].
    eapply Forall_impl; [| exact Hb]. cbv beta. intros c Hc. lia.
  - apply IH; [| exact Hb].
    apply StronglySorted_inv in Hs as [Hs' _]. constructor; assumption.
Qed.

Lemma fire_times_as_unwrapped_witness :
  (StronglySorted Z.le
     ((2 ^ 32 - 1000) :: map call_time (calls_at [2 ^ 32 - 500; 2 ^ 32 + 4003; 2 ^ 32 + 9002; 2 ^ 32 + 9003]))
   /\ Forall (fun c => call_time c < (2 ^ 32 - 1000) + 2 ^ 32)
        (calls_at [2 ^ 32 - 500; 2 ^ 32 + 4003; 2 ^ 32 + 9002; 2 ^ 32 + 9003]))
  /\ fire_times (millis (2 ^ 32 - 1000))
       (calls_at [2 ^ 32 - 500; 2 ^ 32 + 4003; 2 ^ 32 + 9002; 2 ^ 32 + 9003])
     = [2 ^ 32 + 4003; 2 ^ 32 + 9003].
Proof.
  assert (H1 : StronglySorted Z.le
     ((2 ^ 32 - 1000) :: map call_time (calls_at [2 ^ 32 - 500; 2 ^ 32 + 4003; 2 ^ 32 + 9002; 2 ^ 32 + 9003]))).
  { cbn. repeat constructor; lia. }
  assert (H2 : Forall (fun c => call_time c < (2 ^ 32 - 1000) + 2 ^ 32)
        (calls_at [2 ^ 32 - 500; 2 ^ 32 + 4003; 2 ^ 32 + 9002; 2 ^ 32 + 9003])).
  { cbn. repeat constructor; cbn; lia. }
  split; [split; assumption |].
  rewrite (fire_times_as_unwrapped _ _ H1 H2). reflexivity.
Defined.

(** ** The same sentence received again *)

Lemma time_token_ok_long sentence :
  time_token_ok sentence = true -> time_token_long sentence = true.
Proof.
  unfold time_token_ok, time_token_long, on_token.
  destruct (nth_error (tokens (c_str sentence)) 1); [| discriminate].
  intros H. apply andb_true_iff in H as [H _]. exact H.
Qed.

(** With a time token of six characters or more the stack plays no part. *)
Lemma parseRMC_any_stack stack1 stack2 g sentence :
  time_token_long sentence = true ->
  parseRMC stack1 g sentence = parseRMC stack2 g sentence.
Proof.
  unfold time_token_long, on_token. intros H.
  rewrite !parseRMC_traversed.
  destruct (nth_error (tokens (c_str sentence)) 1) as [t |] eqn:E; [| discriminate].
  destruct (token_strlen _ _ _ E) as [Hs _].
  set (toks := tokens (c_str sentence)) in *.
  change (traversed toks stack1 g)
    with (fst (traversed toks stack1 g), snd (traversed toks stack1 g)).
  change (traversed toks stack2 g)
    with (fst (traversed toks stack2 g), snd (traversed toks stack1 g)).
  apply report_same_conversion, adjustTimeZone_firstn.
  unfold traversed, on_token. cbn [fst]. rewrite E, Hs, H.
  apply Nat.leb_le in H.
  rewrite !firstn_store_strncpy by (rewrite Hs; lia). reflexivity.
Qed.

Lemma decode_fresh_copy_again stack1 stack2 g b :
  time_token_ok b = true ->
  decode stack2 (fst (decode stack1 g b)) b = decode stack1 g b.
Proof.
  intros H. apply time_token_ok_long in H. unfold decode.
  destruct (is_rmc b) eqn:R.
  - pose proof (parseRMC_fresh_copy_again stack1 g b) as I.
    rewrite (parseRMC_any_stack stack2 stack1 _ b H).
    destruct (parseRMC stack1 g b) as [g1 o1] eqn:P. cbn [fst] in *.
    rewrite I. reflexivity.
  - reflexivity.
Qed.

(** One frame through part A of [loop], from an assembler that holds
    [acc]. *)
Lemma loop_bytes_frame tempTime0 a g acc s :
  asm_holds a acc -> frame_clean s = true -> s <> [] ->
  let r := loop_bytes tempTime0 (frame s) (a, g) in
  let d := decode tempTime0 g (firstn (BUFFER_SIZE - 1) s) in
  snd (fst r) = fst d /\ snd r = [snd d] /\ asm_holds (fst (fst r)) [].
Proof.
  intros H0 Hs Hne.
  destruct (feed_dollar a _ H0) as [H1 N1].
  change (frame s) with ([dollar] ++ s ++ [CR] ++ [LF]).
  cbv zeta. rewrite !loop_bytes_app.
  assert (E1 : loop_bytes tempTime0 [dollar] (a, g) = ((fst (feed dollar a), g), [])).
  { cbn [loop_bytes]. unfold loop_byte.
    destruct (feed dollar a) as [a1 o1]. cbn [snd fst] in *. subst o1. reflexivity. }
  rewrite E1. cbn [fst snd]. set (a1 := fst (feed dollar a)) in *.
  rewrite (loop_bytes_clean tempTime0 s a1 g Hs). cbn [fst snd app].
  pose proof (feed_all_holds s a1 [] H1) as H2.
  rewrite (pending_from_clean s [] Hs) in H2. cbn [app] in H2.
  set (a2 := feed_all s a1) in *.
  destruct (feed_terminator CR a2 s H2 eq_refl) as [H3 O3].
  assert (E3 : loop_bytes tempTime0 [CR] (a2, g)
               = ((fst (feed CR a2),
                   fst (decode tempTime0 g (firstn (BUFFER_SIZE - 1) s))),
                  [snd (decode tempTime0 g (firstn (BUFFER_SIZE - 1) s))])).
  { cbn [loop_bytes]. unfold loop_byte.
    destruct (feed CR a2) as [a3 [b3 |]]; cbn [snd fst] in *;
      [| contradiction Hne].
    destruct O3 as [_ Ec].
    rewrite (decode_c_str tempTime0 g b3 (firstn (BUFFER_SIZE - 1) s)) by exact Ec.
    destruct (decode tempTime0 g (firstn (BUFFER_SIZE - 1) s)). reflexivity. }
  rewrite E3. cbn [fst snd]. set (a3 := fst (feed CR a2)) in *.
  destruct (feed_terminator LF a3 [] H3 eq_refl) as [H4 O4].
  cbn [loop_bytes]. unfold loop_byte.
  destruct (feed LF a3) as [a4 [b4 |]]; cbn [snd fst] in *.
  - destruct O4 as [O4 _]. contradiction O4. reflexivity.
  - split; [reflexivity |]. split; [reflexivity | exact H4].
Qed.

(** X5: when a frame ([$], a non-empty sentence free of [$], CR and LF,
    then CR LF) whose time token begins with six decimal digits is received
    a second time, the second decode leaves the record exactly as the
    first left it and has the same outcome, whatever the stack holds at
    either decode. *)
Theorem loop_same_frame_again (stack1 stack2 : list ascii)
    (st : Assembler * GpsData) (s : list ascii) :
  reachable st -> frame_clean s = true -> s <> [] ->
  time_token_ok (firstn (BUFFER_SIZE - 1) s) = true ->
  let r1 := loop_bytes stack1 (frame s) st in
  let r2 := loop_bytes stack2 (frame s) (fst r1) in
  snd (fst r2) = snd (fst r1) /\ snd r2 = snd r1
  /\ snd r1 = [snd (decode stack1 (snd st) (firstn (BUFFER_SIZE - 1) s))].
Proof.
  intros Hr Hs Hne Ht. destruct st as [a g].
  destruct (reachable_holds _ Hr) as [[acc H0] _]. cbn [fst snd] in *.
  destruct (loop_bytes_frame stack1 a g acc s H0 Hs Hne) as (E1 & O1 & A1).
  cbv zeta. destruct (loop_bytes stack1 (frame s) (a, g)) as [[a1 g1] o1].
  cbn [fst snd] in *.
  destruct (loop_bytes_frame stack2 a1 g1 [] s A1 Hs Hne) as (E2 & O2 & _).
  rewrite E2, O2, E1, O1.
  rewrite (decode_fresh_copy_again stack1 stack2 g _ Ht). repeat split.
Qed.

Lemma loop_same_frame_again_witness :
  (reachable (asm_init, gps_zero) /\ frame_clean sample = true /\ sample <> []
   /\ time_token_ok (firstn (BUFFER_SIZE - 1) sample) = true)
  /\ snd (fst (loop_bytes (lit "9999999") (frame sample)
                 (fst (loop_bytes (repeat NUL 7) (frame sample)
                         (asm_init, gps_zero)))))
     = snd (fst (loop_bytes (repeat NUL 7) (frame sample) (asm_init, gps_zero))).
Proof.
  assert (H : sample <> []) by discriminate.
  split; [split; [exact reachable_init | repeat split; exact H] |].
  apply (loop_same_frame_again (repeat NUL 7) (lit "9999999")
           (asm_init, gps_zero) sample reachable_init eq_refl H eq_refl).
Defined.

(** ** How far the conversion can write *)

Lemma char_val_range c : 0 <= char_val c <= 255.
Proof.
  unfold char_val. pose proof (nat_ascii_bounded c). lia.
Qed.

Lemma fmt_short_all : forallb fmt_short (seq 0 2300) = true.
Proof. vm_compute. reflexivity. Qed.

(** [%02d] of a number between -999 and 2299 takes at most 4 characters,
    of a number between -99 and 99 at most 3. *)
Lemma fmt_02d_length n :
  -1000 < n < 2300 ->
  (length (fmt_02d n) <= 4)%nat
  /\ (-100 < n < 100 -> (length (fmt_02d n) <= 3)%nat).
Proof.
  intros Hn.
  assert (H : fmt_short (Z.to_nat (Z.abs n)) = true).
  { pose proof fmt_short_all as A. rewrite forallb_forall in A.
    apply A, in_seq. lia. }
  unfold fmt_short in H.
  apply andb_true_iff in H as [H H3]. apply andb_true_iff in H as [Hp Hm].
  rewrite Z2Nat.id in * by lia.
  apply Nat.leb_le in Hp.
  assert (C : n = Z.abs n \/ (n < 0 /\ n = - Z.abs n)) by lia.
  split.
  - destruct C as [C | [Hneg C]]; rewrite C; [exact Hp |].
    apply orb_true_iff in Hm as [Hm | Hm]; apply Nat.leb_le in Hm; [lia | exact Hm].
  - intros Hs. apply orb_true_iff in H3 as [H3 | H3].
    + apply Nat.leb_le in H3. lia.
    + apply andb_true_iff in H3 as [Hp3 Hm3]. apply Nat.leb_le in Hp3, Hm3.
      destruct C as [C | [_ C]]; rewrite C; assumption.
Qed.

(** X17: whatever six bytes the conversion reads, it writes at most 10
    characters (and the NUL): an overrun of the 7-byte array [time] ends
    within the first four bytes of [lat]. *)
Theorem adjustTimeZone_at_most_10 (utc : list ascii) :
  (length (adjustTimeZone utc) <= 10)%nat.
Proof.
  unfold adjustTimeZone, adjusted, digit_at, TZ_HOURS, TZ_MINUTES.
  pose proof (char_val_range (char_at utc 0)). pose proof (char_val_range (char_at utc 1)).
  pose proof (char_val_range (char_at utc 2)). pose proof (char_val_range (char_at utc 3)).
  pose proof (char_val_range (char_at utc 4)). pose proof (char_val_range (char_at utc 5)).
  change (char_val "0") with 48.
  set (h := _ * 10 + _). set (m := _ * 10 + _). set (s := _ * 10 + _).
  assert (Hs : -1000 < s < 2300) by (subst s; lia).
  pose proof (Z.rem_bound_abs (m + 30) 60 ltac:(lia)) as Bm.
  pose proof (Z.rem_bound_abs (h + (5 + Z.quot (m + 30) 60)) 24 ltac:(lia)) as Bh.
  destruct (fmt_02d_length s Hs) as [Ls _].
  destruct (fmt_02d_length (Z.rem (m + 30) 60) ltac:(lia)) as [_ Lm].
  destruct (fmt_02d_length (Z.rem (h + (5 + Z.quot (m + 30) 60)) 24) ltac:(lia)) as [_ Lh].
  specialize (Lm ltac:(lia)). specialize (Lh ltac:(lia)).
  rewrite !length_app. lia.
Qed.
